(** * E2BExecutor: running agent code in a remote sandbox with local hand-offs

    A shallow embedding of [src/smolagents/e2b_executor.py] and the
    properties of its hand-off protocol, result extraction and
    final-answer flag.

    Layout: Python strings, the data model, the executor monad, the
    executor's methods, a model of the remote side, test doubles, the
    vocabulary of the properties, the call with failing local calls, then
    the lemmas and theorems.

    Conventions: the sandbox client may return or raise; the logger only
    receives messages; the [while True] loop runs on fuel, and [OutOfFuel]
    stands for a loop that is still running.  In the executor's methods of
    the first part the library functions and the managed agents return a
    value; [Faulty] has the methods of [__call__] with the exceptions of
    these calls, and agrees with the first part where none is raised. *)

From Stdlib Require Import ZArith List String Ascii DecimalString.
From stdpp Require Import gmap list.

Local Open Scope Z_scope.

(** ** Python strings

    A Python [str] is a sequence of Unicode code points; a code point is a
    natural number.  ASCII literals are written [py "..."]. *)

Abbreviation pystr := (list N).

Definition py (s : string) : pystr :=
  map N_of_ascii (list_ascii_of_string s).

Definition dquote : pystr := [34%N].
Definition nl : pystr := [10%N].

Module Str.

(** Line boundaries recognised by [str.splitlines]. *)
Definition is_linebreak (c : N) : bool :=
  bool_decide (c ∈ [10; 11; 12; 13; 28; 29; 30; 133; 8232; 8233]%N).

(** Code points for which [str.isspace] holds; [str.strip] removes them. *)
Definition isspace (c : N) : bool :=
  ((9 <=? c) && (c <=? 13) || (28 <=? c) && (c <=? 32)
   || (8192 <=? c) && (c <=? 8202)
   || bool_decide (c ∈ [133; 160; 5760; 8232; 8233; 8239; 8287; 12288]))%N.

(** [s.splitlines()]: the carriage return / line feed pair is one
    boundary, boundaries are dropped, and a final boundary opens no empty
    last line.  [cur] is the line being read, in reverse. *)
Fixpoint splitlines_from (cur : pystr) (s : pystr) : list pystr :=
  match s with
  | [] => match cur with [] => [] | _ => [rev cur] end
  | c :: rest =>
      if is_linebreak c then
        match rest with
        | c' :: rest' =>
            if ((c =? 13) && (c' =? 10))%N
            then rev cur :: splitlines_from [] rest'
            else rev cur :: splitlines_from [] rest
        | [] => rev cur :: splitlines_from [] rest
        end
      else splitlines_from (c :: cur) rest
  end.

Definition splitlines (s : pystr) : list pystr := splitlines_from [] s.

(** [sep.join(parts)] *)
Fixpoint join (sep : pystr) (parts : list pystr) : pystr :=
  match parts with
  | [] => []
  | [p] => p
  | p :: rest => p ++ sep ++ join sep rest
  end.

(** [s.split("=")[0]]: the text before the first equals sign, the whole
    string when there is none. *)
Fixpoint before_first_eq (s : pystr) : pystr :=
  match s with
  | [] => []
  | c :: rest => if (c =? 61)%N then [] else c :: before_first_eq rest
  end.

Fixpoint lstrip (s : pystr) : pystr :=
  match s with
  | [] => []
  | c :: rest => if isspace c then lstrip rest else s
  end.

(** [s.strip()] *)
Definition strip (s : pystr) : pystr := rev (lstrip (rev (lstrip s))).

(** [s] with the prefix [p] removed, when [s] starts with [p]. *)
Fixpoint strip_prefix (p s : pystr) : option pystr :=
  match p, s with
  | [], _ => Some s
  | _ :: _, [] => None
  | a :: p', b :: s' => if (a =? b)%N then strip_prefix p' s' else None
  end.

(** [s.replace(old, "")] for a non-empty [old]: occurrences are removed
    left to right, without overlap. *)
Fixpoint remove_all_from (fuel : nat) (old s : pystr) : pystr :=
  match fuel with
  | O => s
  | S fuel' =>
      match strip_prefix old s with
      | Some rest => remove_all_from fuel' old rest
      | None =>
          match s with
          | [] => []
          | c :: rest => c :: remove_all_from fuel' old rest
          end
      end
  end.

Definition remove_all (old s : pystr) : pystr :=
  remove_all_from (S (length s)) old s.

(** [str(n)] for an integer. *)
Definition of_Z (n : Z) : pystr := py (NilZero.string_of_int (Z.to_int n)).

(** [str(x)] for an [Optional[int]], as an f-string formats it. *)
Definition of_optional_int (n : option Z) : pystr :=
  match n with
  | Some z => of_Z z
  | None => py "None"
  end.

End Str.

(** ** The final-answer pattern

    [re.compile(r"final_answer\((.*?)\)")]: the text [final_answer(], then
    lazily any characters other than a line feed, then a closing
    parenthesis. *)
Module FinalAnswerPattern.

(** [(.*?)\)] matches at the start of [s]. *)
Fixpoint closes_on_line (s : pystr) : bool :=
  match s with
  | [] => false
  | c :: rest =>
      if (c =? 41)%N then true
      else if (c =? 10)%N then false
      else closes_on_line rest
  end.

Definition matches_at (s : pystr) : bool :=
  match Str.strip_prefix (py "final_answer(") s with
  | Some rest => closes_on_line rest
  | None => false
  end.

(** [pattern.search(code) is not None] *)
Fixpoint search (code : pystr) : bool :=
  matches_at code ||
  match code with
  | [] => false
  | _ :: rest => search rest
  end.

End FinalAnswerPattern.

#[global] Arguments py : simpl never.
#[global] Arguments Str.join : simpl never.
#[global] Arguments Str.splitlines : simpl never.
#[global] Arguments Str.strip : simpl never.
#[global] Arguments Str.before_first_eq : simpl never.
#[global] Arguments Str.of_Z : simpl never.
#[global] Arguments FinalAnswerPattern.search : simpl never.

(** ** Library functions

    The executor calls [repr], [pickle.dump], [base64.b64decode] and
    [Image.open]; what they compute is not the executor's business, so they
    are an interface.  [pickle_loads] is the remote side's [pickle.load]. *)
Class Builtins := {
  value : Type;
  bytes : Type;
  repr : value -> pystr;
  pickle_dumps : gmap pystr value -> bytes;
  pickle_loads : bytes -> option (gmap pystr value);
  pickle_loads_dumps : forall d, pickle_loads (pickle_dumps d) = Some d;
  getsize : bytes -> Z;
  b64decode : pystr -> bytes;
  Image_open : bytes -> value;
}.

(** ** Data model *)
Section DataModel.
Context `{bi : Builtins}.

(** The fields of [AgentCallInterruption]. *)
Record handoff := Handoff {
  agent_name : pystr;
  args : list value;
  kwargs : list (pystr * value);
  line_number : option Z;
}.

(** The message that [AgentCallInterruption.__init__] gives to
    [Exception.__init__]. *)
Definition interruption_message (h : handoff) : pystr :=
  py "Sub-agent call interruption for '" ++ agent_name h
  ++ py "' at line " ++ Str.of_optional_int (line_number h).

(** [AgentCallInterruption.__init__]: the four attributes are assigned,
    then [super().__init__(message)] assigns [self.args] again, so that
    [args] ends as the one-element tuple of the message, whatever was
    passed for it.  [as_value] is a string as a value. *)
Definition AgentCallInterruption_init (as_value : pystr -> value)
    (name : pystr) (a : list value) (kw : list (pystr * value))
    (line_no : option Z) : handoff :=
  let self := Handoff name a kw line_no in
  Handoff (agent_name self) [as_value (interruption_message self)]
          (kwargs self) (line_number self).

Inductive exn :=
| ValueError (msg : pystr)
| KeyError (key : pystr)
| IndexError
| Exception (msg : pystr)
| AgentCallInterruption (h : handoff)
| OtherError (name : pystr).

(** [execution.error] *)
Record ExecutionError := {
  name : pystr;
  value_ : pystr;
  traceback : pystr;
}.

(** One entry of [execution.results]. *)
Record Result := {
  is_main_result : bool;
  jpeg : option pystr;
  png : option pystr;
  chart : option value;
  data : option value;
  html : option value;
  javascript : option value;
  json : option value;
  latex : option value;
  markdown : option value;
  pdf : option value;
  svg : option value;
  text : option value;
}.

(** What [sbx.run_code] returns.  [stdout] is [execution.logs.stdout]; its
    entries are strings, so [str(log)] is the entry itself. *)
Record Execution := {
  results : list Result;
  stdout : list pystr;
  error : option ExecutionError;
}.

Inductive log_message :=
| Message (s : pystr)
| RunningSubAgent (h : handoff)
| SubAgentExecuted (name : pystr)
| InstallationSucceeded (imports : list pystr)
| ExecutionLogs (out : list pystr).

(** What the executor does to the world outside it, in order. *)
Inductive event :=
| RunCode (code : pystr)
| FilesWrite (path : pystr) (content : bytes)
| CommandsRun (cmd : pystr)
| AgentCalled (name : pystr) (a : list value) (kw : list (pystr * value))
| Log (m : log_message) (level : option Z).

End DataModel.

(** A managed agent is called with positional and keyword arguments and
    returns a value. *)
Abbreviation agent := (list value -> list (pystr * value) -> value).

(** ** The sandbox

    [Sandbox()] is a client of a remote service.  [run_code] returns an
    [Execution] or raises; [files.write] stores a file; [commands.run]
    returns an optional error text, which Python takes as set when it is
    neither [None] nor empty. *)
Class Sandbox `{bi : Builtins} (S : Type) := {
  sbx_run_code : pystr -> S -> S * (exn + Execution);
  sbx_files_write : pystr -> bytes -> S -> S;
  sbx_commands_run : pystr -> S -> S * option pystr;
}.

(** ** The executor's state and monad *)
Section Monad.
Context `{bi : Builtins} {S : Type} `{sb : !Sandbox S}.

(** The attributes of [self], the dictionary object that the caller
    passed as [additional_args] (the executor writes into it), and the
    journal of events. *)
Record state := State {
  sbx : S;
  final_answer : bool;
  managed_agents : gmap pystr agent;
  additional_args : gmap pystr value;
  journal : list event;
}.

Inductive outcome (A : Type) :=
| Return (a : A)
| Raise (e : exn)
| OutOfFuel.
#[global] Arguments Return {A} a.
#[global] Arguments Raise {A} e.
#[global] Arguments OutOfFuel {A}.

Definition M (A : Type) : Type := state -> state * outcome A.

Definition ret {A} (a : A) : M A := fun st => (st, Return a).

Definition bind {A B} (m : M A) (k : A -> M B) : M B :=
  fun st =>
    match m st with
    | (st', Return a) => k a st'
    | (st', Raise e) => (st', Raise e)
    | (st', OutOfFuel) => (st', OutOfFuel)
    end.

Definition raise {A} (e : exn) : M A := fun st => (st, Raise e).
Definition out_of_fuel {A} : M A := fun st => (st, OutOfFuel).
Definition get : M state := fun st => (st, Return st).
Definition record (e : event) : M unit :=
  fun st =>
    (State (sbx st) (final_answer st) (managed_agents st)
           (additional_args st) (journal st ++ [e]), Return tt).

(** [try: m  except AgentCallInterruption as handoff: handler handoff] *)
Definition try_except_interruption {A}
    (m : M A) (handler : handoff -> M A) : M A :=
  fun st =>
    match m st with
    | (st', Raise (AgentCallInterruption h)) => handler h st'
    | r => r
    end.

Definition set_final_answer (b : bool) : M unit :=
  fun st =>
    (State (sbx st) b (managed_agents st) (additional_args st) (journal st),
     Return tt).

(** [additional_args[key] = v] *)
Definition setitem_additional_args (key : pystr) (v : value) : M unit :=
  fun st =>
    (State (sbx st) (final_answer st) (managed_agents st)
           (<[key := v]> (additional_args st)) (journal st),
     Return tt).

Definition logger_log (m : log_message) (level : option Z) : M unit :=
  record (Log m level).

(** Binding the parameter [additional_args] to the caller's dictionary. *)
Definition bind_additional_args (d : gmap pystr value) : M unit :=
  fun st =>
    (State (sbx st) (final_answer st) (managed_agents st) d (journal st),
     Return tt).

(** [self.sbx.run_code(code)] *)
Definition run_code (code : pystr) : M Execution :=
  fun st =>
    let '(s', r) := sbx_run_code code (sbx st) in
    (State s' (final_answer st) (managed_agents st) (additional_args st)
           (journal st ++ [RunCode code]),
     match r with inl e => Raise e | inr x => Return x end).

(** [self.sbx.files.write(path, file)] *)
Definition files_write (path : pystr) (content : bytes) : M unit :=
  fun st =>
    (State (sbx_files_write path content (sbx st)) (final_answer st)
           (managed_agents st) (additional_args st)
           (journal st ++ [FilesWrite path content]),
     Return tt).

(** [self.sbx.commands.run(cmd)], returning [execution.error] *)
Definition commands_run (cmd : pystr) : M (option pystr) :=
  fun st =>
    let '(s', err) := sbx_commands_run cmd (sbx st) in
    (State s' (final_answer st) (managed_agents st) (additional_args st)
           (journal st ++ [CommandsRun cmd]),
     Return err).

End Monad.

Declare Scope exec_scope.
Delimit Scope exec_scope with exec.
Notation "x <- m ;; k" := (bind m (fun x => k))
  (at level 100, m at next level, right associativity) : exec_scope.
Notation "m ;;; k" := (bind m (fun _ => k))
  (at level 100, right associativity) : exec_scope.

(** ** The executor *)
Section Executor.
Context `{bi : Builtins} {S : Type} `{sb : !Sandbox S}.
Local Open Scope exec_scope.

(** *** Code installed in the sandbox by [__init__] *)

(** The base class, after [textwrap.dedent]. *)
Definition tool_base_class_code : pystr :=
  Str.join nl
    [ [];
      py "class Tool:";
      py "    def __call__(self, *args, **kwargs):";
      py "        return self.forward(*args, **kwargs)";
      [];
      py "    def forward(self, *args, **kwargs):";
      py "        pass # to be implemented in child class";
      [] ].

(** The stub defined for a managed agent, after [textwrap.dedent]. *)
Definition stub_code (agent_name : pystr) : pystr :=
  Str.join nl
    [ [];
      py "def " ++ agent_name ++ py "(*args, **kwargs):";
      py "    line_no = sys._getframe(1).f_lineno";
      py "    raise AgentCallInterruption(" ++ dquote ++ py "sub_agent"
        ++ dquote ++ py ", args, kwargs, line_number=line_no)";
      [] ].

(** A tool as [__init__] uses it: [tool.name], [tool.__class__.__name__]
    and the text [instance_to_source(tool, base_cls=Tool)]. *)
Record Tool := {
  tool_name : pystr;
  tool_class_name : pystr;
  tool_source : pystr;
}.

Definition tool_code_of (tool : Tool) : pystr :=
  Str.remove_all (py "from smolagents.tools import Tool") (tool_source tool)
  ++ nl ++ tool_name tool ++ py " = " ++ tool_class_name tool ++ py "()"
  ++ nl.

(** *** [run_code_raise_errors] *)
Definition run_code_raise_errors (code : pystr) : M Execution :=
  (if FinalAnswerPattern.search code then set_final_answer true
   else ret tt) ;;;
  execution <- run_code code ;;
  match error execution with
  | Some err =>
      let execution_logs := Str.join nl (stdout execution) in
      let logs :=
        execution_logs ++ py "Executing code yielded an error:"
        ++ name err ++ value_ err ++ traceback err in
      raise (ValueError logs)
  | None => ret execution
  end.

(** The attribute assignments of [__init__]: [final_answer = False],
    [managed_agents = managed_agents or {}], [sbx = Sandbox()]. *)
Definition new_executor (sandbox : S) (agents : gmap pystr agent) : state :=
  State sandbox false agents ∅ [].

(** *** [__init__]

    The import of [e2b_code_interpreter] is assumed to succeed and the
    tools to pass [validate_tool_attributes]; [list(set(...))] is taken in
    first-occurrence order, and the agents' names in the order of the
    finite map. *)
Definition __init__ (additional_imports : list pystr) (tools : list Tool)
    (managed_agents : option (gmap pystr agent))
    (BASE_BUILTIN_MODULES : list pystr) (sandbox : S)
    : state * outcome unit :=
  let self := new_executor sandbox (default ∅ managed_agents) in
  (logger_log (Message (py "Initializing E2B executor, hold on...")) None ;;;
   let additional_imports :=
     remove_dups (additional_imports ++ [py "smolagents"; py "sys"]) in
   (if (0 <? Z.of_nat (length additional_imports)) then
      err <- commands_run
               (py "pip install " ++ Str.join (py " ") additional_imports) ;;
      match err with
      | Some (c :: e) =>
          raise (Exception (py "Error installing dependencies: " ++ c :: e))
      | _ => logger_log (InstallationSucceeded additional_imports) (Some 0)
      end
    else ret tt) ;;;
   let tool_codes := map tool_code_of tools in
   let tool_definition_code :=
     Str.join nl (map (fun module => py "import " ++ module)
                      BASE_BUILTIN_MODULES)
     ++ tool_base_class_code
     ++ Str.join (nl ++ nl) tool_codes
     ++ concat (map (fun agent_name => nl ++ nl ++ stub_code agent_name)
                    (map fst (map_to_list (default ∅ managed_agents)))) in
   tool_definition_execution <- run_code_raise_errors tool_definition_code ;;
   logger_log (ExecutionLogs (stdout tool_definition_execution)) None) self.

(** *** [__call__] *)

Definition state_path : pystr := py "/home/state.pkl".

Definition remote_unloading_code : pystr :=
  Str.join nl
    [ py "import pickle";
      py "import os";
      py "print(" ++ dquote ++ py "File path" ++ dquote
        ++ py ", os.path.getsize('/home/state.pkl'))";
      py "with open('/home/state.pkl', 'rb') as f:";
      py "    pickle_dict = pickle.load(f)";
      py "locals().update({key: value for key, value in pickle_dict.items()})";
      [] ].

(** The [with tempfile.NamedTemporaryFile() as f] block, which occurs
    twice: pickle [additional_args] and write it to the fixed path. *)
Definition upload_additional_args : M unit :=
  st <- get ;;
  files_write state_path (pickle_dumps (additional_args st)).

(** The index [handoff.line_number - 1] when the guard
    [line_number is not None and 0 < line_number <= len(lines)] holds. *)
Definition guarded_index (line_number : option Z) (lines : list pystr)
    : option nat :=
  match line_number with
  | Some n =>
      if (0 <? n) && (n <=? Z.of_nat (length lines))
      then Some (Z.to_nat (n - 1))
      else None
  | None => None
  end.

Definition invalid_line_message (line_number : option Z)
    (code_action : pystr) : pystr :=
  py "Invalid line number " ++ Str.of_optional_int line_number
  ++ py " for code action:" ++ nl ++ code_action.

(** The body of [except AgentCallInterruption as handoff]; it returns the
    new value of [code_action]. *)
Definition on_interruption (code_action : pystr) (handoff : handoff)
    : M pystr :=
  logger_log (RunningSubAgent handoff) (Some 0) ;;;
  st <- get ;;
  match managed_agents st !! agent_name handoff with
  | None => raise (KeyError (agent_name handoff))
  | Some callee =>
      record (AgentCalled (agent_name handoff) (args handoff)
                          (kwargs handoff)) ;;;
      let result := callee (args handoff) (kwargs handoff) in
      setitem_additional_args (agent_name handoff) result ;;;
      upload_additional_args ;;;
      logger_log (SubAgentExecuted (agent_name handoff)) (Some 0) ;;;
      let lines := Str.splitlines code_action in
      match guarded_index (line_number handoff) lines with
      | Some i =>
          match lines !! i with
          | Some line =>
              let variable := Str.strip (Str.before_first_eq line) in
              let assignment_line := variable ++ py " = " ++ repr result in
              ret (Str.join nl (assignment_line :: drop i lines))
          | None => raise IndexError
          end
      | None =>
          raise (ValueError
                   (invalid_line_message (line_number handoff) code_action))
      end
  end.

(** The [while True] loop; [fuel] bounds the number of iterations. *)
Fixpoint while_true (fuel : nat) (code_action : pystr) : M Execution :=
  match fuel with
  | O => out_of_fuel
  | Datatypes.S fuel' =>
      try_except_interruption
        (run_code_raise_errors code_action)
        (fun handoff =>
           code_action' <- on_interruption code_action handoff ;;
           while_true fuel' code_action')
  end.

(** [for attribute_name in names: if getattr(result, attribute_name) is
    not None: ...] finds the first attribute that is present. *)
Fixpoint first_not_none {A} (names : list (Result -> option A))
    (result : Result) : option A :=
  match names with
  | [] => None
  | attribute :: rest =>
      match attribute result with
      | Some x => Some x
      | None => first_not_none rest result
      end
  end.

Definition image_attributes : list (Result -> option pystr) := [jpeg; png].

Definition document_attributes : list (Result -> option value) :=
  [chart; data; html; javascript; json; latex; markdown; pdf; svg; text].

(** The [for result in execution.results] loop: [Some v] when the loop
    returns [v], [None] when it runs to its end. *)
Fixpoint main_result_output (rs : list Result) : option value :=
  match rs with
  | [] => None
  | result :: rest =>
      if is_main_result result then
        match first_not_none image_attributes result with
        | Some image_output => Some (Image_open (b64decode image_output))
        | None =>
            match first_not_none document_attributes result with
            | Some v => Some v
            | None => main_result_output rest
            end
        end
      else main_result_output rest
  end.

Definition no_main_result_message : pystr :=
  py "No main result returned by executor!".

(** [__call__] in three parts: the state push before the loop, the loop,
    and the code after it. *)
Definition push_state (additional_args : gmap pystr value) : M unit :=
  bind_additional_args additional_args ;;;
  if 0 <? Z.of_nat (size additional_args) then
    upload_additional_args ;;;
    execution <- run_code_raise_errors remote_unloading_code ;;
    let execution_logs := Str.join nl (stdout execution) in
    logger_log (Message execution_logs) (Some 1)
  else ret tt.

Definition return_output (execution : Execution)
    : M (S := S) (option value * pystr * bool) :=
  let execution_logs := Str.join nl (stdout execution) in
  st <- get ;;
  match results execution with
  | [] => ret (None, execution_logs, final_answer st)
  | _ :: _ =>
      match main_result_output (results execution) with
      | Some output => ret (Some output, execution_logs, final_answer st)
      | None =>
          if final_answer st
          then raise (ValueError no_main_result_message)
          else ret (None, execution_logs, false)
      end
  end.

Definition __call__ (fuel : nat) (code_action : pystr)
    (additional_args : gmap pystr value)
    : M (option value * pystr * bool) :=
  push_state additional_args ;;;
  execution <- while_true fuel code_action ;;
  return_output execution.



(** The codes submitted with [run_code], oldest first. *)
Definition submissions (evs : list event) : list pystr :=
  omap (fun e => match e with RunCode c => Some c | _ => None end) evs.

End Executor.

(** ** A model of the remote side

    The sandbox keeps files and a namespace of global variables.  The
    state-loading snippet ([remote_unloading_code]) is Python that runs
    there; [run_unloading] is that snippet as a function on the remote
    state.  Every other code is run by [exec], which is left open. *)
Module Remote.
Section Remote.
Context `{bi : Builtins}.

Inductive binding :=
| Shared (v : value)
| DictObject (d : gmap pystr value)
| ModuleObject (name : pystr)
| FileObject (path : pystr).

Record remote := {
  files : gmap pystr bytes;
  globals : gmap pystr binding;
}.

Definition no_results (out : list pystr) (err : option ExecutionError)
    : Execution :=
  {| results := []; stdout := out; error := err |}.

(** The snippet, statement by statement: the two imports, the [print] of
    the file size, [pickle.load] under [with open(...) as f], and
    [locals().update(...)], which at top level rebinds globals.  A
    missing file or a failing [pickle.load] ends the run with an error
    (the error's text is not modelled). *)
Definition run_unloading (r : remote) : remote * (exn + Execution) :=
  let g1 :=
    <[py "os" := ModuleObject (py "os")]>
      (<[py "pickle" := ModuleObject (py "pickle")]> (globals r)) in
  match files r !! py "/home/state.pkl" with
  | None =>
      ({| files := files r; globals := g1 |},
       inr (no_results []
              (Some {| name := py "FileNotFoundError"; value_ := [];
                       traceback := [] |})))
  | Some content =>
      let out := [py "File path " ++ Str.of_Z (getsize content) ++ nl] in
      let g2 := <[py "f" := FileObject (py "/home/state.pkl")]> g1 in
      match pickle_loads content with
      | None =>
          ({| files := files r; globals := g2 |},
           inr (no_results out
                  (Some {| name := py "UnpicklingError"; value_ := [];
                           traceback := [] |})))
      | Some pickle_dict =>
          let g3 := <[py "pickle_dict" := DictObject pickle_dict]> g2 in
          ({| files := files r;
              globals := (Shared <$> pickle_dict) ∪ g3 |},
           inr (no_results out None))
      end
  end.


Variable exec : pystr -> remote -> remote * (exn + Execution).

Definition sandbox : Sandbox remote := {|
  sbx_run_code code r :=
    if decide (code = remote_unloading_code)
    then run_unloading r
    else exec code r;
  sbx_files_write path content r :=
    {| files := <[path := content]> (files r); globals := globals r |};
  sbx_commands_run cmd r := (r, None);
|}.

End Remote.
End Remote.

(** ** Test doubles *)
Module Doubles.

(** Integers as the only values; a pickle is the dictionary itself. *)
Inductive toy_bytes :=
| Pickled (d : gmap pystr Z)
| Decoded (s : pystr).

#[export] Instance toy : Builtins := {
  value := Z;
  bytes := toy_bytes;
  repr := Str.of_Z;
  pickle_dumps := Pickled;
  pickle_loads b := match b with Pickled d => Some d | Decoded _ => None end;
  pickle_loads_dumps d := eq_refl;
  getsize b := 0;
  b64decode := Decoded;
  Image_open b := match b with Decoded s => Z.of_nat (length s) | _ => 0 end;
}.

(** A sandbox that answers [run_code] from a script, whatever the code. *)
#[export] Instance scripted : Sandbox (list (exn + Execution)) := {
  sbx_run_code code script :=
    match script with
    | r :: rest => (rest, r)
    | [] => ([], inl (OtherError (py "script exhausted")))
    end;
  sbx_files_write path content script := script;
  sbx_commands_run cmd script := (script, None);
}.

(** A string among the toy values: its length. *)
Definition toy_str (s : pystr) : Z := Z.of_nat (length s).

(** The line [x = agent()], and the number of the first such line. *)
Definition call_line (agent : pystr) : pystr := py "x = " ++ agent ++ py "()".

Fixpoint first_call_line (agent : pystr) (n : Z) (lines : list pystr)
    : option Z :=
  match lines with
  | [] => None
  | l :: rest =>
      if decide (l = call_line agent) then Some n
      else first_call_line agent (n + 1) rest
  end.

(** A sandbox client that intercepts the calls of [agent]: code with a
    line [x = agent()] is answered, at the first such line, by the
    interruption that [AgentCallInterruption(agent, (), {}, line_number=n)]
    constructs; other code completes with no artifact. *)
Definition intercepting (agent : pystr) : Sandbox unit := {|
  sbx_run_code code u :=
    match first_call_line agent 1 (Str.splitlines code) with
    | Some n =>
        (u, inl (AgentCallInterruption
                   (AgentCallInterruption_init toy_str agent [] [] (Some n))))
    | None => (u, inr {| results := []; stdout := []; error := None |})
    end;
  sbx_files_write path content u := u;
  sbx_commands_run cmd u := (u, None);
|}.

End Doubles.

(** * Vocabulary of the properties *)
Section Vocabulary.
Context `{bi : Builtins} {S : Type} `{sb : !Sandbox S}.
Implicit Types (st : state (S := S)) (code : pystr) (h : handoff).

(** The text of the error raised for a failed remote run. *)
Definition remote_error_message (execution : Execution)
    (err : ExecutionError) : pystr :=
  Str.join nl (stdout execution) ++ py "Executing code yielded an error:"
  ++ name err ++ value_ err ++ traceback err.

(** A line number that does not index a line of the code. *)
Definition invalid_line (line_number : option Z) (lines : list pystr)
    : Prop :=
  match line_number with
  | None => True
  | Some n => n <= 0 \/ Z.of_nat (length lines) < n
  end.

(** The state after a submission of [code] answered by [s']. *)
Definition after_run code (s' : S) st : state :=
  State s' (final_answer st || FinalAnswerPattern.search code)
        (managed_agents st) (additional_args st)
        (journal st ++ [RunCode code]).

(** The state after the handler's local work: the agent's result is
    stored under the reported name and the dictionary is uploaded. *)
Definition after_handoff h (callee : agent) st : state :=
  let result := callee (args h) (kwargs h) in
  let bundle := <[agent_name h := result]> (additional_args st) in
  State (sbx_files_write state_path (pickle_dumps bundle) (sbx st))
        (final_answer st) (managed_agents st) bundle
        (journal st ++
           [Log (RunningSubAgent h) (Some 0);
            AgentCalled (agent_name h) (args h) (kwargs h);
            FilesWrite state_path (pickle_dumps bundle);
            Log (SubAgentExecuted (agent_name h)) (Some 0)]).

(** The rewritten code for an interception at index [i]. *)
Definition rewritten (lines : list pystr) (i : nat) (line : pystr)
    (result : value) : pystr :=
  Str.join nl
    ((Str.strip (Str.before_first_eq line) ++ py " = " ++ repr result)
       :: drop i lines).

(** [__call__] up to the end of its loop. *)
Definition run_phase (fuel : nat) code (d : gmap pystr value)
    : M Execution :=
  bind (push_state d) (fun _ => while_true fuel code).

(** How the flag and the journal may move between two states: the flag
    is never lowered, the journal only grows, and once a code that
    matches the pattern has been submitted the flag is set. *)
Definition flag_step st st' : Prop :=
  (final_answer st = true -> final_answer st' = true) /\
  exists evs,
    journal st' = journal st ++ evs /\
    forall code, code ∈ submissions evs ->
                 FinalAnswerPattern.search code = true ->
                 final_answer st' = true.

(** Every run of [m] is a [flag_step]. *)
Definition flag_safe {A} (m : M A) : Prop :=
  forall st, flag_step st (fst (m st)).

End Vocabulary.

(** ** Scenarios *)
Module Scenario.
Import Doubles.

Definition completed : Execution :=
  {| results := []; stdout := [py "done"]; error := None |}.

Definition interruption (agent : pystr) (line : option Z) : exn :=
  AgentCallInterruption (Handoff agent [] [] line).

(** One agent, [helper], which returns 42. *)
Definition helper_agents : gmap pystr agent :=
  {[ py "helper" := fun _ _ => 42 ]}.

Definition three_lines : pystr :=
  Str.join nl [py "a = 1"; py "x = helper()"; py "y = x"].

(** The sandbox intercepts the call at line 2, then completes. *)
Definition intercept_once : state (S := list (exn + Execution)) :=
  new_executor [inl (interruption (py "helper") (Some 2)); inr completed]
               helper_agents.


(** The sandbox reports an interception by [helper] at line 7. *)
Definition intercept_line_7 : state (S := list (exn + Execution)) :=
  new_executor [inl (interruption (py "helper") (Some 7)); inr completed]
               helper_agents.





(** An artifact that is not the main result. *)
Definition secondary : Result :=
  {| is_main_result := false; jpeg := None; png := Some (py "aGk=");
     chart := None; data := None; html := None; javascript := None;
     json := None; latex := None; markdown := None; pdf := None;
     svg := None; text := Some 5 |}.

(** A main result with an image, the base64 text of a GIF of one pixel,
    and a text. *)
Definition picture : Result :=
  {| is_main_result := true; jpeg := None;
     png := Some (py "R0lGODlhAQABAIAAAAAAAP///yH5BAEAAAAALAAAAAABAAEAAAIBRAA7");
     chart := None; data := None; html := None; javascript := None;
     json := None; latex := None; markdown := None; pdf := None;
     svg := None; text := Some 5 |}.

(** A main result with a JSON document and a text. *)
Definition document : Result :=
  {| is_main_result := true; jpeg := None; png := None;
     chart := None; data := None; html := None; javascript := None;
     json := Some 3; latex := None; markdown := None; pdf := None;
     svg := None; text := Some 5 |}.

Definition only_secondary : Execution :=
  {| results := [secondary]; stdout := [py "done"]; error := None |}.

Definition finishing_code : pystr := py "final_answer(y)".

(** The sandbox completes with a secondary artifact only. *)
Definition completes_with_secondary : state (S := list (exn + Execution)) :=
  new_executor [inr only_secondary] helper_agents.

(** The sandbox completes with no artifact. *)
Definition completes_empty : state (S := list (exn + Execution)) :=
  new_executor [inr completed] helper_agents.




(** A session with one managed agent, [researcher], set up by [__init__].
    The sandbox runs the definitions, and answers the next submission with
    the interruption that the [raise] statement of the stub constructs,
    [AgentCallInterruption("sub_agent", args, kwargs, line_number=1)], for
    a call without arguments at line 1. *)
Definition researcher_agents : gmap pystr agent :=
  {[ py "researcher" := fun _ _ => 7 ]}.

Definition researcher_session : state (S := list (exn + Execution)) :=
  fst (__init__ [] [] (Some researcher_agents) [py "sys"]
         [inr completed;
          inl (AgentCallInterruption
                 (AgentCallInterruption_init toy_str (py "sub_agent") [] []
                    (Some 1)))]).

(** A session whose one agent is named [sub_agent]. *)
Definition sub_agent_agents : gmap pystr agent :=
  {[ py "sub_agent" := fun _ _ => 42 ]}.

Definition sub_agent_code : pystr :=
  Str.join nl [py "a = 1"; py "x = sub_agent()"; py "y = x"].

Definition sub_agent_resumed : pystr :=
  Str.join nl [py "x = 42"; py "x = sub_agent()"; py "y = x"].

(** The interruption for a call of [sub_agent] at line 2. *)
Definition sub_agent_report : handoff :=
  AgentCallInterruption_init toy_str (py "sub_agent") [] [] (Some 2).

End Scenario.

(** * Vocabulary of the further properties *)

(** ** Text *)
Module Text.

(** What follows a line boundary [c]: a line feed right after a carriage
    return belongs to the boundary. *)
Definition after_boundary (c : N) (rest : pystr) : pystr :=
  match rest with
  | c' :: rest' => if ((c =? 13) && (c' =? 10))%N then rest' else rest
  | [] => rest
  end.

(** A string with no line boundary in it. *)
Definition one_line (l : pystr) : Prop :=
  Forall (fun c => Str.is_linebreak c = false) l.

(** The lines without a last line that is empty. *)
Fixpoint drop_final_empty (lines : list pystr) : list pystr :=
  match lines with
  | [] => []
  | [l] => match l with [] => [] | _ => [l] end
  | l :: rest => l :: drop_final_empty rest
  end.

(** The language of [final_answer\((.*?)\)] found somewhere in [code]. *)
Definition has_final_answer_call (code : pystr) : Prop :=
  exists before inside after,
    code = before ++ py "final_answer(" ++ inside ++ [41%N] ++ after
    /\ 10%N ∉ inside.

(** A string of white space only. *)
Definition blank (s : pystr) : Prop :=
  Forall (fun c => Str.isspace c = true) s.

(** No white space at either end. *)
Definition trimmed (s : pystr) : Prop :=
  (forall c, head s = Some c -> Str.isspace c = false)
  /\ (forall c, last s = Some c -> Str.isspace c = false).

(** Whether [p] occurs in [s]. *)
Fixpoint occurs (p s : pystr) : bool :=
  match Str.strip_prefix p s with
  | Some _ => true
  | None =>
      match s with
      | [] => false
      | _ :: rest => occurs p rest
      end
  end.

End Text.

(** [p] occurs in [s] as a contiguous part. *)
Definition part_of (p s : pystr) : Prop := exists a b, s = a ++ p ++ b.

(** ** Steps and accounts of a call *)
Section FurtherVocabulary.
Context `{bi : Builtins} {S : Type} `{sb : !Sandbox S}.
Implicit Types (st : state (S := S)) (code : pystr) (h : handoff).

(** The state after the handler has logged an interception by a name that
    is not a managed agent. *)
Definition after_unknown h st : state :=
  State (sbx st) (final_answer st) (managed_agents st) (additional_args st)
        (journal st ++ [Log (RunningSubAgent h) (Some 0)]).

(** What one turn of the [while True] loop can do to the state: submit a
    code, do the local work of a hand-off, or log a hand-off it cannot
    serve. *)
Inductive loop_step : state (S := S) -> state (S := S) -> Prop :=
| step_run code st :
    loop_step st (after_run code (fst (sbx_run_code code (sbx st))) st)
| step_handoff h (callee : agent) st :
    managed_agents st !! agent_name h = Some callee ->
    loop_step st (after_handoff h callee st)
| step_unknown h st :
    managed_agents st !! agent_name h = None ->
    loop_step st (after_unknown h st).

(** The names of the agents called, oldest first. *)
Definition agent_calls (evs : list event) : list pystr :=
  omap (fun e => match e with AgentCalled n _ _ => Some n | _ => None end) evs.

(** The files written, oldest first. *)
Definition uploads (evs : list event) : list (pystr * bytes) :=
  omap (fun e => match e with FilesWrite p c => Some (p, c) | _ => None end)
       evs.

(** The events of the handler's local work. *)
Definition handoff_events h (callee : agent) st : list event :=
  let bundle :=
    <[agent_name h := callee (args h) (kwargs h)]> (additional_args st) in
  [Log (RunningSubAgent h) (Some 0);
   AgentCalled (agent_name h) (args h) (kwargs h);
   FilesWrite state_path (pickle_dumps bundle);
   Log (SubAgentExecuted (agent_name h)) (Some 0)].

(** How submissions and agent calls balance when the loop stops. *)
Definition loop_balance {A} (fuel : nat) (evs : list event)
    (out : outcome A) : Prop :=
  let subs := length (submissions evs) in
  let calls := length (agent_calls evs) in
  match out with
  | Return _ => subs = Datatypes.S calls
  | Raise _ => (calls <= subs <= Datatypes.S calls)%nat
  | OutOfFuel => subs = fuel /\ calls = fuel
  end.

(** What the loop and its journal have in common for every run. *)
Record loop_account (fuel : nat) (st st' : state (S := S))
    (evs : list event) : Prop := {
  account_journal : journal st' = journal st ++ evs;
  account_flag :
    final_answer st'
    = final_answer st || existsb FinalAnswerPattern.search (submissions evs);
  account_fuel : (length (submissions evs) <= fuel)%nat;
  account_uploads : length (uploads evs) = length (agent_calls evs);
  account_path : Forall (fun u => fst u = state_path) (uploads evs);
  account_agents :
    Forall (fun n => is_Some (managed_agents st !! n)) (agent_calls evs);
}.

(** The state after the dictionary [d] has been bound and uploaded. *)
Definition uploaded (d : gmap pystr value) (st : state (S := S)) : state :=
  State (sbx_files_write state_path (pickle_dumps d) (sbx st))
        (final_answer st) (managed_agents st) d
        (journal st ++ [FilesWrite state_path (pickle_dumps d)]).

(** The number of uploads that the state push makes. *)
Definition pushes (d : gmap pystr value) : nat :=
  if decide (d = ∅) then 0%nat else 1%nat.

(** The accounts of a whole call. *)
Record call_account (fuel : nat) (d : gmap pystr value)
    (st st' : state (S := S)) (evs : list event) : Prop := {
  call_journal : journal st' = journal st ++ evs;
  call_flag :
    final_answer st'
    = final_answer st || existsb FinalAnswerPattern.search (submissions evs);
  call_fuel : (length (submissions evs) <= fuel + pushes d)%nat;
  call_uploads :
    length (uploads evs) = (length (agent_calls evs) + pushes d)%nat;
  call_path : Forall (fun u => fst u = state_path) (uploads evs);
  call_agents :
    Forall (fun n => is_Some (managed_agents st !! n)) (agent_calls evs);
}.

(** [list(set(additional_imports + ["smolagents", "sys"]))] *)
Definition install_list (additional_imports : list pystr) : list pystr :=
  remove_dups (additional_imports ++ [py "smolagents"; py "sys"]).

Definition install_command (additional_imports : list pystr) : pystr :=
  py "pip install " ++ Str.join (py " ") (install_list additional_imports).

(** The code that [__init__] submits. *)
Definition tool_definition_code (tools : list Tool)
    (agents : gmap pystr agent) (modules : list pystr) : pystr :=
  Str.join nl (map (fun module => py "import " ++ module) modules)
  ++ tool_base_class_code
  ++ Str.join (nl ++ nl) (map tool_code_of tools)
  ++ concat (map (fun agent_name => nl ++ nl ++ stub_code agent_name)
                 (map fst (map_to_list agents))).

(** The journal of [__init__] up to the answer of the installation. *)
Definition install_journal (additional_imports : list pystr) : list event :=
  [Log (Message (py "Initializing E2B executor, hold on...")) None;
   CommandsRun (install_command additional_imports)].

End FurtherVocabulary.


(** * The call with failing local calls

    [__call__] calls a managed agent, [pickle.dump] into a temporary file,
    [files.write], [repr], [base64.b64decode] and [Image.open].  Each of
    these returns or raises.  What it returns is given by [Builtins], by
    the agent and by [Sandbox]; [Faults] says on which input it raises
    instead, and which exception.  [Faulty] holds the methods of
    [__call__] that make such calls, with these failures; where no call
    fails they are the methods above (lemma [call_without_faults]). *)
Class Faults `{bi : Builtins} (S : Type) := {
  (** the call of the managed agent [name] raises *)
  agent_fault : pystr -> list value -> list (pystr * value) -> option exn;
  (** the temporary file or [pickle.dump(additional_args, f)] raises *)
  pickle_fault : gmap pystr value -> option exn;
  (** [self.sbx.files.write(path, file)] raises, the sandbox being left in
      some state *)
  write_fault : pystr -> bytes -> S -> option (S * exn);
  (** [repr(result)] raises *)
  repr_fault : value -> option exn;
  (** [base64.b64decode(image_output.encode("utf-8"))] raises *)
  b64decode_fault : pystr -> option exn;
  (** [Image.open(BytesIO(decoded_bytes))] raises *)
  Image_open_fault : bytes -> option exn;
}.

Module Faulty.
Section Faulty.
Context `{bi : Builtins} {S : Type} `{sb : !Sandbox S} `{ft : !Faults S}.
Local Open Scope exec_scope.

(** A call raises when [fault] names an exception. *)
Definition raise_if (fault : option exn) : M (S := S) unit :=
  match fault with
  | Some e => raise e
  | None => ret tt
  end.

(** [self.sbx.files.write(path, file)]: a write that raises leaves the
    sandbox in the state the failure says, and is not a journal entry; a
    write that returns is the [files_write] of the executor's monad. *)
Definition files_write (path : pystr) (content : bytes) : M unit :=
  fun st =>
    match write_fault path content (sbx st) with
    | Some (s', e) =>
        (State s' (final_answer st) (managed_agents st)
               (additional_args st) (journal st),
         Raise e)
    | None => files_write path content st
    end.

(** The [with tempfile.NamedTemporaryFile() as f] block: [pickle.dump]
    into the temporary file, then the write to the fixed path. *)
Definition upload_additional_args : M unit :=
  st <- get ;;
  raise_if (pickle_fault (additional_args st)) ;;;
  files_write state_path (pickle_dumps (additional_args st)).

(** The body of [except AgentCallInterruption as handoff]. *)
Definition on_interruption (code_action : pystr) (handoff : handoff)
    : M pystr :=
  logger_log (RunningSubAgent handoff) (Some 0) ;;;
  st <- get ;;
  match managed_agents st !! agent_name handoff with
  | None => raise (KeyError (agent_name handoff))
  | Some callee =>
      record (AgentCalled (agent_name handoff) (args handoff)
                          (kwargs handoff)) ;;;
      raise_if (agent_fault (agent_name handoff) (args handoff)
                            (kwargs handoff)) ;;;
      let result := callee (args handoff) (kwargs handoff) in
      setitem_additional_args (agent_name handoff) result ;;;
      upload_additional_args ;;;
      logger_log (SubAgentExecuted (agent_name handoff)) (Some 0) ;;;
      let lines := Str.splitlines code_action in
      match guarded_index (line_number handoff) lines with
      | Some i =>
          match lines !! i with
          | Some line =>
              let variable := Str.strip (Str.before_first_eq line) in
              raise_if (repr_fault result) ;;;
              let assignment_line := variable ++ py " = " ++ repr result in
              ret (Str.join nl (assignment_line :: drop i lines))
          | None => raise IndexError
          end
      | None =>
          raise (ValueError
                   (invalid_line_message (line_number handoff) code_action))
      end
  end.

(** The [while True] loop. *)
Fixpoint while_true (fuel : nat) (code_action : pystr) : M Execution :=
  match fuel with
  | O => out_of_fuel
  | Datatypes.S fuel' =>
      try_except_interruption
        (run_code_raise_errors code_action)
        (fun handoff =>
           code_action' <- on_interruption code_action handoff ;;
           while_true fuel' code_action')
  end.

(** Lines 216-221: the payload is decoded from base64 and opened as an
    image. *)
Definition decode_image (image_output : pystr) : exn + value :=
  match b64decode_fault image_output with
  | Some e => inl e
  | None =>
      let decoded_bytes := b64decode image_output in
      match Image_open_fault decoded_bytes with
      | Some e => inl e
      | None => inr (Image_open decoded_bytes)
      end
  end.

(** The [for result in execution.results] loop: [Some (inr v)] when the
    loop returns [v], [Some (inl e)] when it raises [e], [None] when it
    runs to its end. *)
Fixpoint main_result_output (rs : list Result) : option (exn + value) :=
  match rs with
  | [] => None
  | result :: rest =>
      if is_main_result result then
        match first_not_none image_attributes result with
        | Some image_output => Some (decode_image image_output)
        | None =>
            match first_not_none document_attributes result with
            | Some v => Some (inr v)
            | None => main_result_output rest
            end
        end
      else main_result_output rest
  end.

Definition push_state (additional_args : gmap pystr value) : M unit :=
  bind_additional_args additional_args ;;;
  if 0 <? Z.of_nat (size additional_args) then
    upload_additional_args ;;;
    execution <- run_code_raise_errors remote_unloading_code ;;
    let execution_logs := Str.join nl (stdout execution) in
    logger_log (Message execution_logs) (Some 1)
  else ret tt.

Definition return_output (execution : Execution)
    : M (S := S) (option value * pystr * bool) :=
  let execution_logs := Str.join nl (stdout execution) in
  st <- get ;;
  match results execution with
  | [] => ret (None, execution_logs, final_answer st)
  | _ :: _ =>
      match main_result_output (results execution) with
      | Some (inr output) =>
          ret (Some output, execution_logs, final_answer st)
      | Some (inl e) => raise e
      | None =>
          if final_answer st
          then raise (ValueError no_main_result_message)
          else ret (None, execution_logs, false)
      end
  end.

Definition __call__ (fuel : nat) (code_action : pystr)
    (additional_args : gmap pystr value)
    : M (option value * pystr * bool) :=
  push_state additional_args ;;;
  execution <- while_true fuel code_action ;;
  return_output execution.

(** [__call__] up to the end of its loop. *)
Definition run_phase (fuel : nat) (code_action : pystr)
    (additional_args : gmap pystr value) : M Execution :=
  push_state additional_args ;;;
  while_true fuel code_action.

End Faulty.
End Faulty.

(** No local call fails. *)
Definition no_faults `{bi : Builtins} (S : Type) : Faults S := {|
  agent_fault n a kw := None;
  pickle_fault d := None;
  write_fault path content s := None;
  repr_fault v := None;
  b64decode_fault s := None;
  Image_open_fault b := None;
|}.

(** ** Vocabulary of the call with failing local calls *)
Section FaultyVocabulary.
Context `{bi : Builtins} {S : Type} `{sb : !Sandbox S} `{ft : !Faults S}.
Implicit Types (st : state (S := S)) (code : pystr) (h : handoff).

(** The local calls of a hand-off that come before the line number is
    examined return: the agent, [pickle.dump] and [files.write]. *)
Definition local_calls_return h (callee : agent) st : Prop :=
  let bundle :=
    <[agent_name h := callee (args h) (kwargs h)]> (additional_args st) in
  agent_fault (agent_name h) (args h) (kwargs h) = None
  /\ pickle_fault bundle = None
  /\ write_fault state_path (pickle_dumps bundle) (sbx st) = None.

(** The state when the agent has been called. *)
Definition after_agent_call h st : state :=
  State (sbx st) (final_answer st) (managed_agents st) (additional_args st)
        (journal st ++
           [Log (RunningSubAgent h) (Some 0);
            AgentCalled (agent_name h) (args h) (kwargs h)]).

(** The state when the agent's result has been stored and the sandbox has
    come to [s'] (it is [sbx st] as long as nothing has been written). *)
Definition after_store h (callee : agent) (s' : S) st : state :=
  State s' (final_answer st) (managed_agents st)
        (<[agent_name h := callee (args h) (kwargs h)]> (additional_args st))
        (journal st ++
           [Log (RunningSubAgent h) (Some 0);
            AgentCalled (agent_name h) (args h) (kwargs h)]).


End FaultyVocabulary.

(** ** Accounts of the call with failing local calls *)
Section FaultyAccounts.
Context `{bi : Builtins} {S : Type} `{sb : !Sandbox S}.
Implicit Types (st : state (S := S)) (code : pystr) (h : handoff).

(** What a run of the loop ([pushed] is 0) or of a call ([pushed] is the
    number of uploads of its state push) and its journal have in common,
    whatever the local calls do. *)
Record fault_account (fuel pushed : nat) (st st' : state (S := S))
    (evs : list event) : Prop := {
  fault_account_journal : journal st' = journal st ++ evs;
  fault_account_flag :
    final_answer st'
    = final_answer st || existsb FinalAnswerPattern.search (submissions evs);
  fault_account_agents_kept : managed_agents st' = managed_agents st;
  fault_account_fuel : (length (submissions evs) <= fuel + pushed)%nat;
  fault_account_uploads :
    (length (uploads evs) <= length (agent_calls evs) + pushed)%nat;
  fault_account_path : Forall (fun u => fst u = state_path) (uploads evs);
  fault_account_agents :
    Forall (fun n => is_Some (managed_agents st !! n)) (agent_calls evs);
}.

(** How submissions, agent calls and uploads balance when the loop stops. *)
Definition fault_balance {A} (fuel : nat) (evs : list event)
    (out : outcome A) : Prop :=
  let subs := length (submissions evs) in
  let calls := length (agent_calls evs) in
  let ups := length (uploads evs) in
  match out with
  | Return _ => subs = Datatypes.S calls /\ ups = calls
  | Raise _ =>
      (calls <= subs <= Datatypes.S calls)%nat
      /\ (ups <= calls <= Datatypes.S ups)%nat
  | OutOfFuel => subs = fuel /\ calls = fuel /\ ups = fuel
  end.

End FaultyAccounts.

(** ** Further scenarios *)
Module Cases.
Import Doubles Scenario.

(** A sandbox in which the installation of packages fails. *)
Definition offline : Sandbox unit := {|
  sbx_run_code code u :=
    (u, inr {| results := []; stdout := []; error := None |});
  sbx_files_write path content u := u;
  sbx_commands_run cmd u := (u, Some (py "no network"));
|}.

Definition one_key : gmap pystr value := {[py "k" := 1]}.

Definition some_lines : list pystr := [py "a = 1"; []; py "b = 2"; []].

(** The report that [AgentCallInterruption(agent, (), {}, line_number=line)]
    constructs. *)
Definition report (agent : pystr) (line : option Z) : handoff :=
  AgentCallInterruption_init toy_str agent [] [] line.








(** The sandbox completes with a document as the main result. *)
Definition with_document : Execution :=
  {| results := [secondary; document; picture]; stdout := [py "done"];
     error := None |}.

Definition completes_with_document : state (S := list (exn + Execution)) :=
  new_executor [inr with_document] helper_agents.


End Cases.


(** * Properties *)

(** ** Equations of the executor's operations *)
Section Equations.
Context `{bi : Builtins} {S : Type} `{sb : !Sandbox S}.
Implicit Types (st : state (S := S)) (code : pystr) (h : handoff).

Lemma guarded_index_None ln (lines : list pystr) :
  guarded_index ln lines = None <-> invalid_line ln lines.
Proof.
  unfold guarded_index, invalid_line. destruct ln as [n|]; [|tauto].
  destruct (0 <? n) eqn:E1; destruct (n <=? Z.of_nat (length lines)) eqn:E2;
    simpl; split; intros H; try discriminate; try lia; auto.
Qed.

Lemma guarded_index_Some ln (lines : list pystr) i :
  guarded_index ln lines = Some i <->
  exists n, ln = Some n /\ 0 < n <= Z.of_nat (length lines)
            /\ i = Z.to_nat (n - 1).
Proof.
  unfold guarded_index. destruct ln as [n|].
  - destruct (0 <? n) eqn:E1;
      destruct (n <=? Z.of_nat (length lines)) eqn:E2; simpl; split;
      try (intros [= <-]; exists n; repeat split; lia);
      try discriminate;
      intros (m & [= <-] & Hm & ->); try reflexivity; lia.
  - split; [discriminate | intros (m & Hm & _); discriminate].
Qed.

Lemma guarded_index_lookup ln (lines : list pystr) i :
  guarded_index ln lines = Some i -> is_Some (lines !! i).
Proof.
  intros (n & _ & Hn & ->)%guarded_index_Some.
  apply lookup_lt_is_Some. lia.
Qed.

(** [run_code_raise_errors] in one equation: the flag is raised before
    the submission, the code is submitted once, and the outcome follows
    the sandbox's answer. *)
Lemma run_code_raise_errors_eq code st :
  run_code_raise_errors code st =
    let '(s', r) := sbx_run_code code (sbx st) in
    (State s' (final_answer st || FinalAnswerPattern.search code)
           (managed_agents st) (additional_args st)
           (journal st ++ [RunCode code]),
     match r with
     | inl e => Raise e
     | inr execution =>
         match error execution with
         | Some err => Raise (ValueError (remote_error_message execution err))
         | None => Return execution
         end
     end).
Proof.
  unfold run_code_raise_errors, bind, run_code, set_final_answer, ret, raise.
  destruct (FinalAnswerPattern.search code); simpl;
    destruct (sbx_run_code code (sbx st)) as [s' [e|execution]]; simpl;
    rewrite ?orb_true_r, ?orb_false_r; try reflexivity;
    destruct (error execution); reflexivity.
Qed.

Lemma on_interruption_eq code h st callee :
  managed_agents st !! agent_name h = Some callee ->
  on_interruption code h st =
    (after_handoff h callee st,
     let lines := Str.splitlines code in
     match guarded_index (line_number h) lines with
     | Some i =>
         match lines !! i with
         | Some line =>
             Return (rewritten lines i line (callee (args h) (kwargs h)))
         | None => Raise IndexError
         end
     | None => Raise (ValueError (invalid_line_message (line_number h) code))
     end).
Proof.
  intros Hcallee.
  unfold on_interruption, bind, logger_log, record, get,
    setitem_additional_args, upload_additional_args, files_write, ret, raise,
    after_handoff, rewritten.
  simpl. rewrite Hcallee. simpl.
  rewrite <- !app_assoc. simpl.
  destruct (guarded_index (line_number h) (Str.splitlines code)) as [i|];
    [destruct (Str.splitlines code !! i)|]; reflexivity.
Qed.

Lemma on_interruption_unknown code h st :
  managed_agents st !! agent_name h = None ->
  on_interruption code h st =
    (State (sbx st) (final_answer st) (managed_agents st)
           (additional_args st)
           (journal st ++ [Log (RunningSubAgent h) (Some 0)]),
     Raise (KeyError (agent_name h))).
Proof.
  intros Hnone.
  unfold on_interruption, bind, logger_log, record, get, raise.
  simpl. rewrite Hnone. reflexivity.
Qed.

(** One iteration of the loop that ends in an interception. *)
Lemma while_true_interrupted fuel code st s' h :
  sbx_run_code code (sbx st) = (s', inl (AgentCallInterruption h)) ->
  while_true (Datatypes.S fuel) code st =
    bind (on_interruption code h) (while_true fuel) (after_run code s' st).
Proof.
  intros Hrun. simpl. unfold try_except_interruption.
  rewrite run_code_raise_errors_eq, Hrun. reflexivity.
Qed.

(** One iteration of the loop that completes. *)
Lemma while_true_completed fuel code st s' execution :
  sbx_run_code code (sbx st) = (s', inr execution) ->
  error execution = None ->
  while_true (Datatypes.S fuel) code st =
    (after_run code s' st, Return execution).
Proof.
  intros Hrun Herr. simpl. unfold try_except_interruption.
  rewrite run_code_raise_errors_eq, Hrun, Herr. reflexivity.
Qed.

(** An interception with an invalid line number, the agent being known:
    the handler's local work is done, then the loop raises. *)
Lemma while_true_invalid_line fuel code st s' h callee :
  sbx_run_code code (sbx st) = (s', inl (AgentCallInterruption h)) ->
  managed_agents st !! agent_name h = Some callee ->
  invalid_line (line_number h) (Str.splitlines code) ->
  while_true (Datatypes.S fuel) code st =
    (after_handoff h callee (after_run code s' st),
     Raise (ValueError (invalid_line_message (line_number h) code))).
Proof.
  intros Hrun Hcallee Hinv%guarded_index_None.
  rewrite (while_true_interrupted _ _ _ _ _ Hrun).
  unfold bind. rewrite (on_interruption_eq _ _ _ callee) by exact Hcallee.
  simpl. rewrite Hinv. reflexivity.
Qed.

(** An interception by a name that is not a managed agent: the loop
    raises [KeyError] after the first log message; nothing else is done. *)
Lemma while_true_unknown_agent fuel code st s' h :
  sbx_run_code code (sbx st) = (s', inl (AgentCallInterruption h)) ->
  managed_agents st !! agent_name h = None ->
  while_true (Datatypes.S fuel) code st =
    (State s' (final_answer st || FinalAnswerPattern.search code)
           (managed_agents st) (additional_args st)
           (journal st ++ [RunCode code; Log (RunningSubAgent h) (Some 0)]),
     Raise (KeyError (agent_name h))).
Proof.
  intros Hrun Hnone.
  rewrite (while_true_interrupted _ _ _ _ _ Hrun).
  unfold bind. rewrite on_interruption_unknown by exact Hnone.
  unfold after_run. simpl. by rewrite <- app_assoc.
Qed.


(** [__call__] once the state push has returned. *)
Lemma call_after_push fuel code d st0 st :
  push_state d st0 = (st, Return tt) ->
  __call__ fuel code d st0 =
    bind (while_true fuel code) return_output st.
Proof.
  intros Hpush. unfold __call__. unfold bind at 1. rewrite Hpush.
  reflexivity.
Qed.

(** An empty dictionary is bound and nothing is pushed. *)
Lemma push_state_empty st :
  push_state ∅ st =
    (State (sbx st) (final_answer st) (managed_agents st) ∅ (journal st),
     Return tt).
Proof. reflexivity. Qed.

End Equations.

(** ** The hand-off *)
Section HandOff.
Context `{bi : Builtins} {S : Type} `{sb : !Sandbox S}.
Implicit Types (st : state (S := S)) (code : pystr) (h : handoff).

Lemma submissions_app (evs evs' : list event) :
  submissions (evs ++ evs') = submissions evs ++ submissions evs'.
Proof. apply omap_app. Qed.


(** The line of the call site is the second line of the rewritten code:
    the slice [lines[line_number - 1:]] starts at the call site. *)
Lemma rewritten_keeps_call_line (lines : list pystr) i line result :
  lines !! i = Some line ->
  rewritten lines i line result =
    Str.join nl
      ((Str.strip (Str.before_first_eq line) ++ py " = " ++ repr result)
         :: line :: drop (Datatypes.S i) lines).
Proof.
  intros Hline. unfold rewritten. by rewrite (drop_S _ _ _ Hline).
Qed.


End HandOff.

(** ** The hand-off on concrete runs *)
Section HandOffRuns.
Import Doubles Scenario.




(** C1: the code resubmitted after the interception at line 2 of
    [a = 1 / x = helper() / y = x] is [x = 42 / x = helper() / y = x]: the
    line of the call is still there, after the new assignment, where the
    claim has [x = 42 / y = x]. *)
Theorem C1_resubmission_keeps_call_line :
  Str.splitlines three_lines !! 1%nat = Some (py "x = helper()")
  /\ submissions (journal (fst (__call__ 2 three_lines ∅ intercept_once)))
     = [three_lines;
        Str.join nl [py "x = 42"; py "x = helper()"; py "y = x"]]
  /\ snd (__call__ 2 three_lines ∅ intercept_once)
     = Return (None, py "done", false)
  /\ Str.join nl [py "x = 42"; py "x = helper()"; py "y = x"]
     <> Str.join nl [py "x = 42"; py "y = x"].
Proof.
  repeat split; try (vm_compute; reflexivity).
  vm_compute. discriminate.
Qed.

(** With a sandbox client that intercepts the call whenever the call line
    runs, the resumed code is intercepted again at its line 2 and rewritten
    to itself, so no amount of fuel ends the loop. *)
Lemma sub_agent_handoff_resumes code (st : state (S := unit)) :
  code = sub_agent_code \/ code = sub_agent_resumed ->
  managed_agents st = sub_agent_agents ->
  on_interruption (sb := intercepting (py "sub_agent")) code
    sub_agent_report st
  = (after_handoff (sb := intercepting (py "sub_agent"))
       sub_agent_report (fun _ _ => 42) st,
     Return sub_agent_resumed).
Proof.
  intros Hcode Hagents.
  rewrite (on_interruption_eq (sb := intercepting (py "sub_agent"))
             _ _ _ (fun _ _ => 42))
    by (simpl; rewrite Hagents; vm_compute; reflexivity).
  f_equal. destruct Hcode as [-> | ->]; vm_compute; reflexivity.
Qed.

Lemma resumed_code_loops fuel (st : state (S := unit)) :
  managed_agents st = sub_agent_agents ->
  snd (while_true (sb := intercepting (py "sub_agent")) fuel sub_agent_resumed st)
  = OutOfFuel.
Proof.
  revert st. induction fuel as [|fuel IH]; intros st Hagents;
    [reflexivity|].
  rewrite (while_true_interrupted (sb := intercepting (py "sub_agent"))
             fuel sub_agent_resumed st (sbx st)
             sub_agent_report)
    by reflexivity.
  unfold bind.
  rewrite sub_agent_handoff_resumes by (auto || exact Hagents).
  apply IH. exact Hagents.
Qed.

Lemma sub_agent_call_never_returns fuel :
  snd (__call__ (sb := intercepting (py "sub_agent")) fuel sub_agent_code ∅
         (new_executor tt sub_agent_agents))
  = OutOfFuel.
Proof.
  rewrite (call_after_push (sb := intercepting (py "sub_agent")) _ _ _ _ _
             (push_state_empty (sb := intercepting (py "sub_agent")) _)).
  unfold bind.
  destruct fuel as [|fuel]; [reflexivity|].
  rewrite (while_true_interrupted (sb := intercepting (py "sub_agent"))
             fuel sub_agent_code _ tt
             sub_agent_report)
    by reflexivity.
  unfold bind.
  rewrite sub_agent_handoff_resumes by (auto || reflexivity).
  match goal with
  | |- snd (match while_true ?n ?c ?st with _ => _ end) = _ =>
      pose proof (resumed_code_loops n st eq_refl) as Hloop;
      destruct (while_true n c st) as [st' [x| |]]
  end; simpl in *; try discriminate; reflexivity.
Qed.

(** C2: the stub that [__init__] defines for an agent passes the fixed
    name [sub_agent] to [AgentCallInterruption], not the agent's name.  For
    every agent name the [def] line carries the name and the [raise]
    statement the literal; the constructor keeps its first argument as the
    reported name (and the message, not the call's arguments, as [args]);
    nothing else that [__init__] submits mentions [AgentCallInterruption];
    and in a session whose one agent is [researcher], the report that the
    [raise] statement constructs makes the controller's lookup fail with
    [KeyError]. *)
Theorem C2_stub_reports_sub_agent :
  (forall n : pystr,
      stub_code n
      = nl ++ py "def " ++ n ++ py "(*args, **kwargs):" ++ nl
        ++ py "    line_no = sys._getframe(1).f_lineno" ++ nl
        ++ py "    raise AgentCallInterruption(" ++ dquote ++ py "sub_agent"
        ++ dquote ++ py ", args, kwargs, line_number=line_no)" ++ nl)
  /\ (forall (bi : Builtins) (as_value : pystr -> @value bi) n a kw line_no,
        let report := AgentCallInterruption_init as_value n a kw line_no in
        agent_name report = n
        /\ args report
           = [as_value (py "Sub-agent call interruption for '" ++ n
                        ++ py "' at line " ++ Str.of_optional_int line_no)]
        /\ kwargs report = kw
        /\ line_number report = line_no)
  /\ submissions (journal researcher_session)
     = [py "import sys" ++ tool_base_class_code ++ nl ++ nl
        ++ stub_code (py "researcher")]
  /\ Text.occurs (py "AgentCallInterruption")
       (py "import sys" ++ tool_base_class_code) = false
  /\ Str.splitlines (stub_code (py "researcher")) !! 1%nat
     = Some (py "def researcher(*args, **kwargs):")
  /\ Str.splitlines (stub_code (py "researcher")) !! 3%nat
     = Some (py "    raise AgentCallInterruption(" ++ dquote
             ++ py "sub_agent" ++ dquote
             ++ py ", args, kwargs, line_number=line_no)")
  /\ managed_agents researcher_session !! py "sub_agent" = None
  /\ snd (__call__ 3 (py "x = researcher()") ∅ researcher_session)
     = Raise (KeyError (py "sub_agent")).
Proof.
  split.
  { intros n. unfold stub_code, Str.join.
    by rewrite <- !app_assoc, ?app_nil_r. }
  split; [intros bi as_value n a kw line_no; repeat split|].
  repeat split; vm_compute; reflexivity.
Qed.

End HandOffRuns.

(** ** Failures and result extraction *)
Section Results.
Context `{bi : Builtins} {S : Type} `{sb : !Sandbox S}.
Implicit Types (st : state (S := S)) (code : pystr) (h : handoff).

Lemma call_run_phase fuel code d st0 :
  __call__ fuel code d st0 = bind (run_phase fuel code d) return_output st0.
Proof.
  unfold __call__, run_phase, bind.
  destruct (push_state d st0) as [st [[]| |]]; reflexivity.
Qed.

Lemma run_phase_after_push fuel code d st0 st :
  push_state d st0 = (st, Return tt) ->
  run_phase fuel code d st0 = while_true fuel code st.
Proof. intros Hpush. unfold run_phase, bind. by rewrite Hpush. Qed.

Lemma main_result_output_cons (r : Result) rest :
  main_result_output (r :: rest)
  = if is_main_result r then
      match first_not_none image_attributes r with
      | Some image_output => Some (Image_open (b64decode image_output))
      | None =>
          match first_not_none document_attributes r with
          | Some v => Some v
          | None => main_result_output rest
          end
      end
    else main_result_output rest.
Proof. reflexivity. Qed.

Lemma first_image_attribute (r : Result) :
  first_not_none image_attributes r
  = match jpeg r with Some s => Some s | None => png r end.
Proof. simpl. by destruct (jpeg r), (png r). Qed.

(** The loop over the results ends without a value when no result is
    flagged as the main one. *)
Lemma main_result_output_no_main (rs : list Result) :
  (forall r, r ∈ rs -> is_main_result r = false) ->
  main_result_output rs = None.
Proof.
  induction rs as [|r rs IH]; intros Hnone; [reflexivity|].
  simpl. rewrite (Hnone r) by left.
  apply IH. intros r' Hr'. apply Hnone. by right.
Qed.

(** Results that are not flagged are skipped. *)
Lemma main_result_output_filter (rs : list Result) :
  main_result_output rs = main_result_output (List.filter is_main_result rs).
Proof.
  induction rs as [|r rs IH]; [reflexivity|].
  simpl. destruct (is_main_result r) eqn:Hmain; simpl.
  - rewrite Hmain, IH. reflexivity.
  - exact IH.
Qed.

(** [first_not_none] returns the value of the earliest attribute, in the
    order of the list, that is present. *)
Lemma first_not_none_Some {A} (names : list (Result -> option A)) r v :
  first_not_none names r = Some v <->
  exists i attribute,
    names !! i = Some attribute /\ attribute r = Some v
    /\ forall j earlier, (j < i)%nat -> names !! j = Some earlier ->
                         earlier r = None.
Proof.
  induction names as [|a names IH]; simpl.
  - split; [discriminate | intros (i & g & Hi & _); discriminate].
  - destruct (a r) as [x|] eqn:Har.
    + split.
      * intros [= ->]. exists 0%nat, a. repeat split; auto. lia.
      * intros ([|i] & g & Hi & Hg & Hfirst).
        -- injection Hi as <-. congruence.
        -- specialize (Hfirst 0%nat a). simpl in Hfirst.
           rewrite Hfirst in Har by (auto; lia). discriminate.
    + rewrite IH. split.
      * intros (i & g & Hi & Hg & Hfirst).
        exists (Datatypes.S i), g. repeat split; auto.
        intros [|j] e Hj Hje; [injection Hje as <-; exact Har|].
        apply (Hfirst j); [lia | exact Hje].
      * intros ([|i] & g & Hi & Hg & Hfirst).
        -- injection Hi as <-. congruence.
        -- exists i, g. repeat split; auto.
           intros j e Hj Hje. apply (Hfirst (Datatypes.S j)); [lia | exact Hje].
Qed.

Lemma first_not_none_None {A} (names : list (Result -> option A)) r :
  first_not_none names r = None <->
  forall attribute, attribute ∈ names -> attribute r = None.
Proof.
  induction names as [|a names IH]; simpl.
  - split; [intros _ g Hg; inversion Hg | reflexivity].
  - destruct (a r) as [x|] eqn:Har.
    + split; [discriminate|]. intros Hall.
      rewrite (Hall a) in Har by left. discriminate.
    + rewrite IH. split.
      * intros Hall g Hg. inversion Hg; subst; auto.
      * intros Hall g Hg. apply Hall. by right.
Qed.

(** C4, amended: when the loop has completed in final-answer mode and no
    result is flagged as main, the call raises the missing-result
    [ValueError] if there is at least one result; with no result at all
    it returns [None], the logs and the flag. *)
Theorem C4_final_answer_without_main_result
    fuel code d st0 st' (execution : Execution) :
  run_phase fuel code d st0 = (st', Return execution) ->
  final_answer st' = true ->
  (forall r, r ∈ results execution -> is_main_result r = false) ->
  (results execution <> [] ->
     __call__ fuel code d st0
     = (st', Raise (ValueError no_main_result_message)))
  /\ (results execution = [] ->
        __call__ fuel code d st0
        = (st', Return (None, Str.join nl (stdout execution), true))).
Proof.
  intros Hrun Hflag Hnone.
  rewrite call_run_phase. unfold bind. rewrite Hrun.
  unfold return_output, bind, get, ret, raise.
  rewrite (main_result_output_no_main _ Hnone), Hflag.
  split; intros Hres; destruct (results execution); congruence.
Qed.

End Results.

(** ** The final-answer flag *)
Section Flag.
Context `{bi : Builtins} {S : Type} `{sb : !Sandbox S}.
Implicit Types (st : state (S := S)) (code : pystr) (h : handoff).

Lemma flag_step_refl st : flag_step st st.
Proof.
  split; [auto|]. exists []. split; [by rewrite app_nil_r|].
  intros code Hin. inversion Hin.
Qed.

Lemma flag_step_trans st1 st2 st3 :
  flag_step st1 st2 -> flag_step st2 st3 -> flag_step st1 st3.
Proof.
  intros [Hmono (evs & Hj & Hset)] [Hmono' (evs' & Hj' & Hset')].
  split; [auto|]. exists (evs ++ evs').
  split; [by rewrite Hj', Hj, app_assoc|].
  intros code Hin Hmatch. unfold submissions in Hin.
  rewrite omap_app in Hin. apply elem_of_app in Hin as [Hin|Hin]; eauto.
Qed.

(** Events other than submissions, with the flag kept. *)
Lemma flag_step_quiet st s' agents d (evs : list event) :
  submissions evs = [] ->
  flag_step st (State s' (final_answer st) agents d (journal st ++ evs)).
Proof.
  intros Hquiet. split; [auto|]. exists evs. split; [reflexivity|].
  rewrite Hquiet. intros code Hin. inversion Hin.
Qed.

Lemma flag_step_same_journal st s' agents d :
  flag_step st (State s' (final_answer st) agents d (journal st)).
Proof.
  pose proof (flag_step_quiet st s' agents d [] eq_refl) as Hquiet.
  by rewrite app_nil_r in Hquiet.
Qed.

Lemma flag_safe_ret {A} (a : A) : flag_safe (ret (S := S) a).
Proof. intros st. apply flag_step_refl. Qed.

Lemma flag_safe_raise {A} e : flag_safe (raise (S := S) (A := A) e).
Proof. intros st. apply flag_step_refl. Qed.

Lemma flag_safe_out_of_fuel {A} : flag_safe (out_of_fuel (S := S) (A := A)).
Proof. intros st. apply flag_step_refl. Qed.

Lemma flag_safe_get : flag_safe (get (S := S)).
Proof. intros st. apply flag_step_refl. Qed.

Lemma flag_safe_bind {A B} (m : M (S := S) A) (k : A -> M (S := S) B) :
  flag_safe m -> (forall a, flag_safe (k a)) -> flag_safe (bind m k).
Proof.
  intros Hm Hk st. unfold bind. specialize (Hm st).
  destruct (m st) as [st' [a| |]]; simpl in *; auto.
  eapply flag_step_trans; [exact Hm | apply Hk].
Qed.

Lemma flag_safe_try {A} (m : M (S := S) A)
    (handler : handoff -> M (S := S) A) :
  flag_safe m -> (forall h, flag_safe (handler h)) ->
  flag_safe (try_except_interruption m handler).
Proof.
  intros Hm Hk st. unfold try_except_interruption. specialize (Hm st).
  destruct (m st) as [st' [a|[]|]]; simpl in *; auto.
  eapply flag_step_trans; [exact Hm | apply Hk].
Qed.

Lemma flag_safe_logger_log m level : flag_safe (logger_log (S := S) m level).
Proof. intros st. by apply flag_step_quiet. Qed.

Lemma flag_safe_agent_called n a kw :
  flag_safe (record (S := S) (AgentCalled n a kw)).
Proof. intros st. by apply flag_step_quiet. Qed.

Lemma flag_safe_files_write path content :
  flag_safe (files_write (S := S) path content).
Proof. intros st. by apply flag_step_quiet. Qed.

Lemma flag_safe_commands_run cmd : flag_safe (commands_run (S := S) cmd).
Proof.
  intros st. unfold commands_run.
  destruct (sbx_commands_run cmd (sbx st)). by apply flag_step_quiet.
Qed.

Lemma flag_safe_setitem key v :
  flag_safe (setitem_additional_args (S := S) key v).
Proof. intros st. apply flag_step_same_journal. Qed.

Lemma flag_safe_bind_additional_args d :
  flag_safe (bind_additional_args (S := S) d).
Proof. intros st. apply flag_step_same_journal. Qed.

Lemma flag_safe_upload : flag_safe (upload_additional_args (S := S)).
Proof.
  apply flag_safe_bind; [apply flag_safe_get|].
  intros st. apply flag_safe_files_write.
Qed.

Lemma final_answer_after_run code st :
  final_answer (fst (run_code_raise_errors code st))
  = final_answer st || FinalAnswerPattern.search code.
Proof.
  rewrite run_code_raise_errors_eq.
  by destruct (sbx_run_code code (sbx st)).
Qed.

Lemma flag_safe_run_code_raise_errors code :
  flag_safe (run_code_raise_errors code).
Proof.
  intros st. rewrite run_code_raise_errors_eq.
  destruct (sbx_run_code code (sbx st)) as [s' r]. simpl.
  split; simpl; [intros ->; reflexivity|].
  exists [RunCode code]. split; [reflexivity|].
  intros c Hin Hmatch. simpl in Hin.
  apply list_elem_of_singleton in Hin as ->.
  rewrite Hmatch. apply orb_true_r.
Qed.

Lemma flag_safe_on_interruption code h : flag_safe (on_interruption code h).
Proof.
  unfold on_interruption.
  apply flag_safe_bind; [apply flag_safe_logger_log|]. intros _.
  apply flag_safe_bind; [apply flag_safe_get|]. intros st.
  destruct (managed_agents st !! agent_name h); [|apply flag_safe_raise].
  apply flag_safe_bind; [apply flag_safe_agent_called|]. intros _.
  apply flag_safe_bind; [apply flag_safe_setitem|]. intros _.
  apply flag_safe_bind; [apply flag_safe_upload|]. intros _.
  apply flag_safe_bind; [apply flag_safe_logger_log|]. intros _.
  destruct (guarded_index _ _); [|apply flag_safe_raise].
  destruct (_ !! _); [apply flag_safe_ret | apply flag_safe_raise].
Qed.

Lemma flag_safe_while_true fuel code : flag_safe (while_true fuel code).
Proof.
  revert code. induction fuel as [|fuel IH]; intros code.
  - apply flag_safe_out_of_fuel.
  - simpl. apply flag_safe_try; [apply flag_safe_run_code_raise_errors|].
    intros h. apply flag_safe_bind; [apply flag_safe_on_interruption|].
    intros code'. apply IH.
Qed.

Lemma flag_safe_push_state d : flag_safe (push_state d).
Proof.
  unfold push_state.
  apply flag_safe_bind; [apply flag_safe_bind_additional_args|]. intros _.
  destruct (0 <? _); [|apply flag_safe_ret].
  apply flag_safe_bind; [apply flag_safe_upload|]. intros _.
  apply flag_safe_bind; [apply flag_safe_run_code_raise_errors|]. intros ex.
  apply flag_safe_logger_log.
Qed.

Lemma return_output_state (execution : Execution) st :
  fst (return_output execution st) = st.
Proof.
  unfold return_output, bind, get, ret, raise.
  destruct (results execution); [reflexivity|].
  destruct (main_result_output _); [reflexivity|].
  by destruct (final_answer st).
Qed.

Lemma return_output_flag (execution : Execution) st st' out logs b :
  return_output execution st = (st', Return (out, logs, b)) ->
  b = final_answer st'.
Proof.
  unfold return_output, bind, get, ret, raise.
  destruct (results execution); [by intros [= <- _ _ <-]|].
  destruct (main_result_output _); [by intros [= <- _ _ <-]|].
  destruct (final_answer st) eqn:Hflag; [discriminate|].
  by intros [= <- _ _ <-].
Qed.

Lemma flag_safe_return_output (execution : Execution) :
  flag_safe (return_output (S := S) execution).
Proof. intros st. rewrite return_output_state. apply flag_step_refl. Qed.

Lemma flag_safe_call fuel code d : flag_safe (__call__ fuel code d).
Proof.
  unfold __call__.
  apply flag_safe_bind; [apply flag_safe_push_state|]. intros _.
  apply flag_safe_bind; [apply flag_safe_while_true|].
  apply flag_safe_return_output.
Qed.

Lemma flag_step_init imports tools agents modules sandbox :
  flag_step (new_executor sandbox (default ∅ agents))
            (fst (__init__ imports tools agents modules sandbox)).
Proof.
  unfold __init__.
  apply flag_safe_bind; [apply flag_safe_logger_log|]. intros _.
  apply flag_safe_bind.
  - destruct (0 <? _); [|apply flag_safe_ret].
    apply flag_safe_bind; [apply flag_safe_commands_run|].
    intros [[|c e]|];
      [apply flag_safe_logger_log | apply flag_safe_raise
      | apply flag_safe_logger_log].
  - intros _.
    apply flag_safe_bind; [apply flag_safe_run_code_raise_errors|].
    intros ex. apply flag_safe_logger_log.
Qed.

(** C7: the flag is [False] in a new executor; a submission through
    [run_code_raise_errors] leaves it set exactly when it was set before
    or the code matches the pattern; [__init__] and every [__call__] are
    flag steps, that is, they never lower the flag and leave it set once
    a matching code has been submitted; and the boolean returned by
    [__call__] is the flag of the state it leaves. *)
Theorem C7_final_answer_flag :
  (forall (sandbox : S) agents,
      final_answer (new_executor sandbox agents) = false)
  /\ (forall code st,
        final_answer (fst (run_code_raise_errors code st))
        = final_answer st || FinalAnswerPattern.search code)
  /\ (forall imports tools agents modules (sandbox : S),
        flag_step (new_executor sandbox (default ∅ agents))
                  (fst (__init__ imports tools agents modules sandbox)))
  /\ (forall fuel code d st,
        flag_step st (fst (__call__ fuel code d st)))
  /\ (forall fuel code d st st' out logs b,
        __call__ fuel code d st = (st', Return (out, logs, b)) ->
        b = final_answer st').
Proof.
  split; [reflexivity|].
  split; [exact final_answer_after_run|].
  split; [exact flag_step_init|].
  split; [intros fuel code d st; apply flag_safe_call|].
  intros fuel code d st st' out logs b.
  rewrite call_run_phase. unfold bind.
  destruct (run_phase fuel code d st) as [st1 [execution| |]];
    try discriminate.
  apply return_output_flag.
Qed.

End Flag.

(** ** The state channel, on the model of the remote side *)
Section StateChannel.
Context `{bi : Builtins}.
Variable exec : pystr -> Remote.remote -> Remote.remote * (exn + Execution).
Implicit Types (st : state (S := Remote.remote)) (d : gmap pystr value).

Local Abbreviation sandbox := (Remote.sandbox exec).






End StateChannel.

(** ** Failures, extraction, flag and state channel on concrete runs *)
Section Runs.
Import Doubles Scenario.


Lemma C4_final_answer_without_main_result_witness :
  __call__ 1 finishing_code ∅ completes_with_secondary
  = (fst (run_phase 1 finishing_code ∅ completes_with_secondary),
     Raise (ValueError no_main_result_message)).
Proof.
  refine (proj1 (C4_final_answer_without_main_result
                   1 finishing_code ∅ completes_with_secondary
                   (fst (run_phase 1 finishing_code ∅
                           completes_with_secondary))
                   only_secondary _ _ _) _).
  - vm_compute. reflexivity.
  - vm_compute. reflexivity.
  - intros r Hr. apply list_elem_of_singleton in Hr as ->. reflexivity.
  - discriminate.
Defined.

(** C4 as stated fails: in final-answer mode, a run that produced no
    artifact at all makes the call return [None] with the logs and the
    flag; nothing is raised. *)
Lemma C4_no_artifact_returns_None :
  final_answer (fst (run_phase 1 finishing_code ∅ completes_empty)) = true
  /\ snd (run_phase 1 finishing_code ∅ completes_empty) = Return completed
  /\ results completed = []
  /\ snd (__call__ 1 finishing_code ∅ completes_empty)
     = Return (None, py "done", true).
Proof. repeat split; vm_compute; reflexivity. Qed.

Lemma C7_final_answer_flag_witness :
  true = final_answer (fst (__call__ 1 finishing_code ∅ completes_empty)).
Proof.
  destruct (C7_final_answer_flag (bi := toy) (sb := scripted))
    as (_ & _ & _ & _ & Hreturned).
  apply (Hreturned 1%nat finishing_code ∅ completes_empty
           (fst (__call__ 1 finishing_code ∅ completes_empty))
           None (py "done") true).
  vm_compute. reflexivity.
Defined.



End Runs.

(** * Further properties *)

(** ** Text *)
Section TextLemmas.
Import Text.

Lemma splitlines_from_boundary cur c rest :
  Str.is_linebreak c = true ->
  Str.splitlines_from cur (c :: rest)
  = rev cur :: Str.splitlines_from [] (after_boundary c rest).
Proof.
  intros Hc. simpl. rewrite Hc. unfold after_boundary.
  destruct rest as [|c' rest']; [reflexivity|].
  by destruct ((c =? 13) && (c' =? 10))%N.
Qed.

Lemma splitlines_from_char cur c rest :
  Str.is_linebreak c = false ->
  Str.splitlines_from cur (c :: rest) = Str.splitlines_from (c :: cur) rest.
Proof. intros Hc. simpl. by rewrite Hc. Qed.

Lemma after_boundary_length c rest :
  (length (after_boundary c rest) <= length rest)%nat.
Proof.
  unfold after_boundary. destruct rest as [|c' rest']; [done|].
  destruct ((c =? 13) && (c' =? 10))%N; simpl; lia.
Qed.

Lemma splitlines_from_one_line cur s :
  one_line cur ->
  Forall one_line (Str.splitlines_from cur s).
Proof.
  remember (length s) as n eqn:Hn. revert cur s Hn.
  induction n as [n IH] using lt_wf_ind. intros cur s -> Hcur.
  destruct s as [|c rest].
  - simpl. destruct cur; [constructor|].
    constructor; [|constructor]. by apply Forall_rev.
  - destruct (Str.is_linebreak c) eqn:Hc.
    + rewrite splitlines_from_boundary by done. constructor.
      * by apply Forall_rev.
      * eapply IH; [|reflexivity|constructor].
        pose proof (after_boundary_length c rest). simpl. lia.
    + rewrite splitlines_from_char by done.
      eapply IH; [|reflexivity|]; [simpl; lia|]. by constructor.
Qed.

(** Every line that [splitlines] returns is free of line boundaries. *)
Lemma splitlines_lines_have_no_boundary (s l : pystr) (c : N) :
  l ∈ Str.splitlines s -> c ∈ l -> Str.is_linebreak c = false.
Proof.
  intros Hl Hc.
  pose proof (splitlines_from_one_line [] s (List.Forall_nil _)) as Hall.
  rewrite Forall_forall in Hall. specialize (Hall l Hl).
  unfold one_line in Hall. rewrite Forall_forall in Hall. by apply Hall.
Qed.

Lemma splitlines_from_app cur l s :
  one_line l ->
  Str.splitlines_from cur (l ++ s) = Str.splitlines_from (rev l ++ cur) s.
Proof.
  revert cur. induction l as [|c l IH]; intros cur Hl; [reflexivity|].
  inversion Hl as [|? ? Hc Hl']; subst.
  simpl app. rewrite splitlines_from_char by done.
  rewrite IH by done. simpl. by rewrite <- app_assoc.
Qed.

Lemma splitlines_from_join cur l lines :
  Forall one_line (l :: lines) ->
  Str.splitlines_from cur (Str.join nl (l :: lines))
  = match lines with
    | [] => match rev cur ++ l with [] => [] | _ => [rev cur ++ l] end
    | _ => (rev cur ++ l) :: drop_final_empty lines
    end.
Proof.
  revert cur l. induction lines as [|l' lines IH]; intros cur l Hall.
  - inversion Hall as [|? ? Hl _]; subst.
    change (Str.join nl [l]) with l.
    rewrite <- (app_nil_r l) at 1. rewrite splitlines_from_app by done.
    assert (Hrev : rev cur ++ l = rev (rev l ++ cur))
      by (by rewrite rev_app_distr, rev_involutive).
    rewrite Hrev. simpl.
    destruct (rev l ++ cur) as [|x xs]; [reflexivity|]. simpl.
    destruct (rev xs ++ [x]) eqn:E; [by destruct (rev xs)|]. reflexivity.
  - inversion Hall as [|? ? Hl Hrest]; subst.
    change (Str.join nl (l :: l' :: lines))
      with (l ++ nl ++ Str.join nl (l' :: lines)).
    rewrite splitlines_from_app by done.
    change (nl ++ Str.join nl (l' :: lines))
      with (10%N :: Str.join nl (l' :: lines)).
    rewrite splitlines_from_boundary by reflexivity.
    rewrite rev_app_distr, rev_involutive. f_equal.
    assert (Hafter : after_boundary 10 (Str.join nl (l' :: lines))
                     = Str.join nl (l' :: lines)).
    { unfold after_boundary. by destruct (Str.join nl (l' :: lines)). }
    rewrite Hafter, IH by done. simpl.
    destruct lines; [|reflexivity]. by destruct l'.
Qed.

(** Joining lines with a line feed and splitting again gives the lines
    back, up to a last line that is empty. *)
Lemma splitlines_join (lines : list pystr) :
  Forall one_line lines ->
  Str.splitlines (Str.join nl lines) = drop_final_empty lines.
Proof.
  intros Hall. destruct lines as [|l lines]; [reflexivity|].
  unfold Str.splitlines. rewrite splitlines_from_join by done.
  simpl. destruct lines; [by destruct l | reflexivity].
Qed.

Lemma before_first_eq_cons c (rest : pystr) :
  Str.before_first_eq (c :: rest)
  = if (c =? 61)%N then [] else c :: Str.before_first_eq rest.
Proof. reflexivity. Qed.

(** [split("=")[0]] is the part of the line before its first equals sign:
    it has no equals sign, and the line goes on with an equals sign or
    ends there. *)
Lemma before_first_eq_spec (line : pystr) :
  (61%N ∉ Str.before_first_eq line)
  /\ (line = Str.before_first_eq line
      \/ exists rest, line = Str.before_first_eq line ++ 61%N :: rest).
Proof.
  induction line as [|c line [IHnot IHsplit]].
  - split; [by intros H; inversion H | by left].
  - rewrite before_first_eq_cons. destruct (N.eqb_spec c 61) as [->|Hne].
    + split; [by intros H; inversion H|]. right. by exists line.
    + split.
      * intros [Heq|Hin]%elem_of_cons; [congruence | by apply IHnot].
      * destruct IHsplit as [Heq | [rest Heq]].
        -- left. by rewrite <- Heq.
        -- right. exists rest. simpl. by rewrite <- Heq.
Qed.

Lemma lstrip_cons c (s : pystr) :
  Str.lstrip (c :: s) = if Str.isspace c then Str.lstrip s else c :: s.
Proof. reflexivity. Qed.

Lemma lstrip_spec (s : pystr) :
  exists a, s = a ++ Str.lstrip s /\ blank a
            /\ forall c, head (Str.lstrip s) = Some c -> Str.isspace c = false.
Proof.
  induction s as [|c s (a & Hs & Ha & Hhead)].
  - exists []. repeat split; [constructor | discriminate].
  - rewrite lstrip_cons. destruct (Str.isspace c) eqn:Hc.
    + exists (c :: a). split; [simpl; by rewrite <- Hs|].
      split; [by constructor | exact Hhead].
    + exists []. split; [reflexivity|]. split; [constructor|].
      intros c' [= <-]. exact Hc.
Qed.

Lemma lstrip_id (s : pystr) :
  (forall c, head s = Some c -> Str.isspace c = false) -> Str.lstrip s = s.
Proof.
  destruct s as [|c s]; [reflexivity|]. intros Hhead.
  rewrite lstrip_cons, (Hhead c); reflexivity.
Qed.

Lemma head_rev {A} (l : list A) : head (rev l) = last l.
Proof.
  induction l as [|x l IH] using rev_ind; [reflexivity|].
  by rewrite rev_app_distr, last_snoc.
Qed.

Lemma last_rev {A} (l : list A) : last (rev l) = head l.
Proof. by rewrite <- head_rev, rev_involutive. Qed.

Lemma head_app_nonempty {A} (l k : list A) x :
  head l = Some x -> head (l ++ k) = Some x.
Proof. by destruct l. Qed.

(** [strip] removes white space at both ends and nothing else: the string
    is its stripped form between two blank strings, and the stripped form
    neither starts nor ends with white space. *)
Lemma strip_spec (s : pystr) :
  (exists a b, s = a ++ Str.strip s ++ b /\ blank a /\ blank b)
  /\ trimmed (Str.strip s).
Proof.
  unfold Str.strip.
  destruct (lstrip_spec s) as (a & Hs & Ha & Hhead).
  destruct (lstrip_spec (rev (Str.lstrip s))) as (b & Ht & Hb & Hlast).
  set (t := Str.lstrip s) in *. set (u := Str.lstrip (rev t)) in *.
  assert (Htu : t = rev u ++ rev b).
  { rewrite <- rev_app_distr, <- Ht. by rewrite rev_involutive. }
  split.
  - exists a, (rev b). split; [by rewrite <- Htu|].
    split; [exact Ha | by apply Forall_rev].
  - split.
    + intros c Hc. apply Hhead. rewrite Htu.
      by apply head_app_nonempty.
    + intros c Hc. apply Hlast. by rewrite <- last_rev.
Qed.

Lemma strip_trimmed (s : pystr) : trimmed s -> Str.strip s = s.
Proof.
  intros [Hhead Hlast]. unfold Str.strip.
  rewrite (lstrip_id s Hhead).
  rewrite (lstrip_id (rev s)); [apply rev_involutive|].
  intros c Hc. apply Hlast. by rewrite <- head_rev.
Qed.

(** Stripping twice is stripping once. *)
Lemma strip_idempotent (s : pystr) : Str.strip (Str.strip s) = Str.strip s.
Proof. apply strip_trimmed, strip_spec. Qed.

Lemma strip_sublist (s : pystr) c : c ∈ Str.strip s -> c ∈ s.
Proof.
  destruct (strip_spec s) as [(a & b & Hs & _) _]. intros Hc.
  rewrite Hs. rewrite !elem_of_app. auto.
Qed.

Lemma before_first_eq_app (v rest : pystr) :
  61%N ∉ v -> Str.before_first_eq (v ++ 61%N :: rest) = v.
Proof.
  induction v as [|c v IH]; intros Hv; [reflexivity|].
  simpl app. rewrite before_first_eq_cons.
  destruct (N.eqb_spec c 61) as [->|Hne]; [exfalso; apply Hv; left|].
  f_equal. apply IH. intros Hin. apply Hv. by right.
Qed.

Lemma strip_snoc_space (v : pystr) :
  trimmed v -> Str.strip (v ++ [32%N]) = v.
Proof.
  intros [Hhead Hlast]. unfold Str.strip.
  destruct v as [|c v]; [reflexivity|].
  assert (Hl : Str.lstrip ((c :: v) ++ [32%N]) = (c :: v) ++ [32%N]).
  { change ((c :: v) ++ [32%N]) with (c :: (v ++ [32%N])).
    rewrite lstrip_cons, (Hhead c); reflexivity. }
  rewrite Hl, rev_app_distr.
  change (rev [32%N] ++ rev (c :: v)) with (32%N :: rev (c :: v)).
  rewrite lstrip_cons. change (Str.isspace 32) with true. cbv iota.
  rewrite lstrip_id; [apply rev_involutive|].
  intros c' Hc'. apply Hlast. by rewrite <- head_rev.
Qed.

(** X3: the target read back from the assignment line that the handler
    writes is the target it was written with, whatever the line and the
    text of the result. *)
Theorem X3_assignment_line_target (line repr_result : pystr) :
  let variable := Str.strip (Str.before_first_eq line) in
  Str.strip (Str.before_first_eq (variable ++ py " = " ++ repr_result))
  = variable.
Proof.
  intros variable.
  assert (Hno : 61%N ∉ variable ++ [32%N]).
  { intros [Hin|Hin]%elem_of_app.
    - apply strip_sublist in Hin. by apply (proj1 (before_first_eq_spec line)).
    - apply list_elem_of_singleton in Hin. discriminate. }
  change (variable ++ py " = " ++ repr_result)
    with (variable ++ [32%N] ++ 61%N :: 32%N :: repr_result).
  rewrite app_assoc, before_first_eq_app by exact Hno.
  apply strip_snoc_space, strip_spec.
Qed.

Lemma strip_prefix_Some (p s rest : pystr) :
  Str.strip_prefix p s = Some rest <-> s = p ++ rest.
Proof.
  revert s. induction p as [|a p IH]; intros s; simpl.
  - split; [by intros [= ->] | by intros ->].
  - destruct s as [|b s]; [split; discriminate|].
    destruct (N.eqb_spec a b) as [->|Hne].
    + rewrite IH. split; [by intros -> | by intros [= ->]].
    + split; [discriminate | intros [= -> _]; done].
Qed.

Lemma closes_on_line_true (s : pystr) :
  FinalAnswerPattern.closes_on_line s = true <->
  exists inside after, s = inside ++ [41%N] ++ after /\ 10%N ∉ inside.
Proof.
  induction s as [|c s IH]; simpl.
  - split; [discriminate|]. intros (i & a & Hs & _). by destruct i.
  - destruct (N.eqb_spec c 41) as [->|H41].
    + split; [|done]. intros _. exists [], s. split; [done|].
      by intros H; inversion H.
    + destruct (N.eqb_spec c 10) as [->|H10].
      * split; [discriminate|]. intros ([|x i] & a & Hs & Hno).
        -- by injection Hs as Hc _.
        -- injection Hs as <- _. exfalso. apply Hno. left.
      * rewrite IH. split.
        -- intros (i & a & -> & Hno). exists (c :: i), a. split; [done|].
           intros [Heq|Hin]%elem_of_cons; [by subst | done].
        -- intros ([|x i] & a & Hs & Hno).
           ++ by injection Hs as Hc _.
           ++ injection Hs as <- ->. exists i, a. split; [done|].
              intros Hin. apply Hno. by right.
Qed.

Lemma search_cons c (code : pystr) :
  FinalAnswerPattern.search (c :: code)
  = FinalAnswerPattern.matches_at (c :: code) || FinalAnswerPattern.search code.
Proof. reflexivity. Qed.

Lemma matches_at_true (s : pystr) :
  FinalAnswerPattern.matches_at s = true <->
  exists inside after,
    s = py "final_answer(" ++ inside ++ [41%N] ++ after /\ 10%N ∉ inside.
Proof.
  unfold FinalAnswerPattern.matches_at.
  destruct (Str.strip_prefix (py "final_answer(") s) as [rest|] eqn:Hp.
  - apply strip_prefix_Some in Hp as ->. rewrite closes_on_line_true.
    split; intros (i & a & Hs & Hno); exists i, a; split; try done.
    + by rewrite Hs.
    + by apply app_inv_head in Hs.
  - split; [discriminate|]. intros (i & a & Hs & _).
    assert (Hsome : Str.strip_prefix (py "final_answer(") s
                    = Some (i ++ [41%N] ++ a))
      by (by apply strip_prefix_Some).
    congruence.
Qed.

(** X4: the search of the final-answer pattern succeeds exactly on the
    codes that contain [final_answer(], then characters other than a line
    feed, then a closing parenthesis. *)
Theorem X4_final_answer_search (code : pystr) :
  FinalAnswerPattern.search code = true <-> has_final_answer_call code.
Proof.
  unfold has_final_answer_call. induction code as [|c code IH].
  - change (FinalAnswerPattern.search []) with false.
    split; [discriminate|]. intros (b & i & a & Hs & _).
    destruct b; discriminate.
  - rewrite search_cons, orb_true_iff, matches_at_true, IH. split.
    + intros [(i & a & Hs & Hno) | (b & i & a & Hs & Hno)].
      * exists [], i, a. by split.
      * exists (c :: b), i, a. split; [by rewrite Hs | done].
    + intros ([|x b] & i & a & Hs & Hno).
      * left. exists i, a. by split.
      * right. injection Hs as <- ->. exists b, i, a. by split.
Qed.

End TextLemmas.

(** ** The loop, step by step *)
Section StepLemmas.
Context `{bi : Builtins} {S : Type} `{sb : !Sandbox S}.
Implicit Types (st : state (S := S)) (code : pystr) (h : handoff).

Lemma after_run_fst code st s' r :
  sbx_run_code code (sbx st) = (s', r) ->
  after_run code s' st = after_run code (fst (sbx_run_code code (sbx st))) st.
Proof. by intros ->. Qed.

Lemma while_true_S fuel code st :
  while_true (Datatypes.S fuel) code st =
    match sbx_run_code code (sbx st) with
    | (s', inl (AgentCallInterruption h)) =>
        bind (on_interruption code h) (while_true fuel) (after_run code s' st)
    | (s', inl e) => (after_run code s' st, Raise e)
    | (s', inr execution) =>
        (after_run code s' st,
         match error execution with
         | Some err => Raise (ValueError (remote_error_message execution err))
         | None => Return execution
         end)
    end.
Proof.
  simpl. unfold try_except_interruption. rewrite run_code_raise_errors_eq.
  destruct (sbx_run_code code (sbx st)) as [s' [[]|execution]];
    try reflexivity.
  by destruct (error execution).
Qed.

(** The handler's three ways out. *)
Lemma on_interruption_cases code h st :
  (managed_agents st !! agent_name h = None
   /\ on_interruption code h st
      = (after_unknown h st, Raise (KeyError (agent_name h))))
  \/ (exists callee : agent,
        managed_agents st !! agent_name h = Some callee
        /\ invalid_line (line_number h) (Str.splitlines code)
        /\ on_interruption code h st
           = (after_handoff h callee st,
              Raise (ValueError (invalid_line_message (line_number h) code))))
  \/ (exists (callee : agent) i line,
        managed_agents st !! agent_name h = Some callee
        /\ guarded_index (line_number h) (Str.splitlines code) = Some i
        /\ Str.splitlines code !! i = Some line
        /\ on_interruption code h st
           = (after_handoff h callee st,
              Return (rewritten (Str.splitlines code) i line
                        (callee (args h) (kwargs h))))).
Proof.
  destruct (managed_agents st !! agent_name h) as [callee|] eqn:Hcallee.
  - right. rewrite (on_interruption_eq _ _ _ callee) by exact Hcallee.
    cbv zeta.
    destruct (guarded_index (line_number h) (Str.splitlines code)) as [i|]
      eqn:Hidx.
    + right. destruct (guarded_index_lookup _ _ _ Hidx) as [line Hline].
      exists callee, i, line. rewrite Hline. auto.
    + left. exists callee. apply guarded_index_None in Hidx. auto.
  - left. split; [reflexivity|]. by apply on_interruption_unknown.
Qed.

(** The loop is a sequence of loop steps, whatever the sandbox answers. *)
Lemma while_true_steps fuel code st :
  rtc loop_step st (fst (while_true fuel code st)).
Proof.
  revert code st. induction fuel as [|fuel IH]; intros code st;
    [apply rtc_refl|].
  rewrite while_true_S.
  destruct (sbx_run_code code (sbx st)) as [s' r] eqn:Hrun.
  assert (Hstep : loop_step st (after_run code s' st)).
  { rewrite (after_run_fst _ _ _ _ Hrun). constructor. }
  destruct r as [e|execution]; [|by apply rtc_once].
  destruct e as [| | | |h|]; try by apply rtc_once.
  eapply rtc_l; [exact Hstep|]. unfold bind.
  destruct (on_interruption_cases code h (after_run code s' st))
    as [[Hnone ->] | [(callee & Hc & _ & ->) | (callee & i & line & Hc & _ & _ & ->)]].
  - apply rtc_once. by constructor.
  - apply rtc_once. by constructor.
  - eapply rtc_l; [by apply (step_handoff h callee)|]. apply IH.
Qed.

Lemma loop_step_managed_agents st st' :
  loop_step st st' -> managed_agents st' = managed_agents st.
Proof. by intros []. Qed.

Lemma loop_steps_managed_agents st st' :
  rtc loop_step st st' -> managed_agents st' = managed_agents st.
Proof.
  induction 1 as [|st1 st2 st3 Hstep _ IH]; [done|].
  by rewrite IH, (loop_step_managed_agents _ _ Hstep).
Qed.

Lemma loop_step_additional_args st st' k :
  loop_step st st' ->
  (managed_agents st !! k = None ->
   additional_args st' !! k = additional_args st !! k)
  /\ (is_Some (additional_args st !! k) -> is_Some (additional_args st' !! k)).
Proof.
  intros [code st1 | h callee st1 Hcallee | h st1 Hnone]; simpl; auto.
  split.
  - intros Hk. apply lookup_insert_ne. intros Heq. congruence.
  - intros Hsome. destruct (decide (agent_name h = k)) as [->|Hne].
    + rewrite lookup_insert_eq. eauto.
    + by rewrite lookup_insert_ne.
Qed.

Lemma loop_steps_additional_args st st' k :
  rtc loop_step st st' ->
  (managed_agents st !! k = None ->
   additional_args st' !! k = additional_args st !! k)
  /\ (is_Some (additional_args st !! k) -> is_Some (additional_args st' !! k)).
Proof.
  induction 1 as [|st1 st2 st3 Hstep _ [IH1 IH2]]; [done|].
  destruct (loop_step_additional_args _ _ k Hstep) as [H1 H2].
  rewrite (loop_step_managed_agents _ _ Hstep) in IH1.
  split; [intros Hk; by rewrite IH1, H1 | auto].
Qed.

Lemma push_state_frame d st :
  managed_agents (fst (push_state d st)) = managed_agents st
  /\ additional_args (fst (push_state d st)) = d.
Proof.
  unfold push_state, bind at 1, bind_additional_args.
  destruct (0 <? Z.of_nat (size d)); [|done].
  unfold bind at 1, upload_additional_args, bind at 1, get, files_write.
  unfold bind. rewrite run_code_raise_errors_eq. simpl.
  destruct (sbx_run_code _ _) as [s' [e|execution]]; [done|].
  by destruct (error execution).
Qed.

(** The state a call ends in is the state its loop ends in, or the state
    of the failed push. *)
Lemma call_final_state (fuel : nat) code (d : gmap pystr value) st :
  fst (__call__ fuel code d st)
  = match push_state d st with
    | (st1, Return _) => fst (while_true fuel code st1)
    | (st1, _) => st1
    end.
Proof.
  unfold __call__, bind.
  destruct (push_state d st) as [st1 [[]| |]]; try reflexivity.
  destruct (while_true fuel code st1) as [st2 [execution| |]];
    try reflexivity.
  apply return_output_state.
Qed.

(** X9: a call leaves the managed agents as they are, and writes into the
    caller's dictionary under the names of managed agents only: every
    other key keeps the value it was passed with, and no key is removed. *)
Theorem X9_call_frame (fuel : nat) code (d : gmap pystr value) st :
  let st' := fst (__call__ fuel code d st) in
  managed_agents st' = managed_agents st
  /\ (forall k, managed_agents st !! k = None ->
                additional_args st' !! k = d !! k)
  /\ (forall k, is_Some (d !! k) -> is_Some (additional_args st' !! k)).
Proof.
  intros st'. subst st'. rewrite call_final_state.
  destruct (push_state_frame d st) as [Hagents Hargs].
  destruct (push_state d st) as [st1 out] eqn:Hpush. simpl in Hagents, Hargs.
  assert (Hsteps : rtc loop_step st1
                     match out with
                     | Return _ => fst (while_true fuel code st1)
                     | _ => st1
                     end).
  { destruct out; [apply while_true_steps | apply rtc_refl..]. }
  replace (match out with
           | Return _ => fst (while_true fuel code st1)
           | Raise _ | _ => st1
           end)
    with (match out with
          | Return _ => fst (while_true fuel code st1)
          | _ => st1
          end) by (by destruct out).
  pose proof (loop_steps_managed_agents _ _ Hsteps) as Hm.
  split; [by rewrite Hm|].
  split; intros k Hk.
  - destruct (loop_steps_additional_args _ _ k Hsteps) as [H1 _].
    rewrite H1, Hargs; [done | by rewrite Hagents].
  - destruct (loop_steps_additional_args _ _ k Hsteps) as [_ H2].
    apply H2. by rewrite Hargs.
Qed.

End StepLemmas.

(** ** Accounts of the loop *)
Section Accounting.
Context `{bi : Builtins} {S : Type} `{sb : !Sandbox S}.
Implicit Types (st : state (S := S)) (code : pystr) (h : handoff).

Lemma account_one_run (fuel : nat) code s' st :
  loop_account (Datatypes.S fuel) st (after_run code s' st) [RunCode code].
Proof.
  split; simpl; try done; try lia; try constructor.
  by rewrite orb_false_r.
Qed.

Lemma account_unknown (fuel : nat) code s' h st :
  loop_account (Datatypes.S fuel) st
    (after_unknown h (after_run code s' st))
    [RunCode code; Log (RunningSubAgent h) (Some 0)].
Proof.
  split; simpl; try done; try lia; try constructor.
  - by rewrite <- app_assoc.
  - by rewrite orb_false_r.
Qed.

Lemma account_handoff (fuel : nat) code s' h (callee : agent) st :
  managed_agents st !! agent_name h = Some callee ->
  loop_account (Datatypes.S fuel) st
    (after_handoff h callee (after_run code s' st))
    (RunCode code :: handoff_events h callee st).
Proof.
  intros Hc. split; simpl; try done; try lia.
  - by rewrite <- app_assoc.
  - by rewrite orb_false_r.
  - repeat constructor.
  - repeat constructor. by rewrite Hc.
Qed.

Lemma account_resume (fuel : nat) code s' h (callee : agent) st st' evs :
  managed_agents st !! agent_name h = Some callee ->
  loop_account fuel (after_handoff h callee (after_run code s' st)) st' evs ->
  loop_account (Datatypes.S fuel) st st'
    ((RunCode code :: handoff_events h callee st) ++ evs).
Proof.
  intros Hc [Hj Hf Hfuel Hup Hpath Hag].
  unfold submissions, uploads, agent_calls in *.
  split; unfold submissions, uploads, agent_calls; rewrite ?omap_app.
  - rewrite Hj. simpl. by rewrite <- !app_assoc.
  - rewrite Hf. simpl. by rewrite orb_assoc.
  - simpl. lia.
  - rewrite !length_app. simpl. lia.
  - apply Forall_app. split; [repeat constructor | done].
  - apply Forall_app. split; [repeat constructor; by rewrite Hc | done].
Qed.

(** The accounts of the loop, for every sandbox and every fuel. *)
Lemma while_true_account fuel code st st' out :
  while_true fuel code st = (st', out) ->
  exists evs,
    loop_account fuel st st' evs
    /\ loop_balance fuel evs out
    /\ (forall execution, out = Return execution -> error execution = None).
Proof.
  revert code st st' out. induction fuel as [|fuel IH];
    intros code st st' out Hrun.
  - injection Hrun as <- <-. exists []. split; [|split; [done|discriminate]].
    split; simpl; try done; try constructor.
    + by rewrite app_nil_r.
    + by rewrite orb_false_r.
  - rewrite while_true_S in Hrun.
    destruct (sbx_run_code code (sbx st)) as [s' r].
    assert (Hone : forall out',
               (exists e, out' = Raise e) \/
               (exists x, out' = Return x /\ error x = None) ->
               (after_run code s' st, out') = (st', out) ->
               exists evs,
                 loop_account (Datatypes.S fuel) st st' evs
                 /\ loop_balance (Datatypes.S fuel) evs out
                 /\ (forall execution,
                        out = Return execution -> error execution = None)).
    { intros out' Hout [= <- <-]. exists [RunCode code].
      split; [apply account_one_run|]. split.
      - destruct Hout as [[e ->] | (x & -> & _)]; simpl; lia.
      - intros execution ->.
        destruct Hout as [[e [=]] | (x & [= ->] & Herr)]. done. }
    destruct r as [e|execution].
    + destruct e as [| | | |h|]; try (apply (Hone _ (or_introl (ex_intro _ _ eq_refl)) Hrun)).
      unfold bind in Hrun.
      destruct (on_interruption_cases code h (after_run code s' st))
        as [[Hnone Heq] | [(callee & Hc & _ & Heq)
                          | (callee & i & line & Hc & _ & _ & Heq)]];
        rewrite Heq in Hrun.
      * injection Hrun as <- <-. eexists. split; [apply account_unknown|].
        split; [simpl; lia | discriminate].
      * injection Hrun as <- <-. eexists.
        split; [exact (account_handoff fuel code s' h callee st Hc)|].
        split; [simpl; lia | discriminate].
      * destruct (IH _ _ _ _ Hrun) as (evs & Hacc & Hbal & Herr).
        eexists. split; [exact (account_resume fuel code s' h callee st st' evs Hc Hacc)|].
        split; [|exact Herr].
        unfold loop_balance, submissions, agent_calls in *.
        rewrite !omap_app, !length_app. simpl.
        destruct out; lia.
    + destruct (error execution) eqn:Herr.
      * apply (Hone _ (or_introl (ex_intro _ _ eq_refl)) Hrun).
      * apply (Hone _ (or_intror (ex_intro _ execution (conj eq_refl Herr)))
                 Hrun).
Qed.

End Accounting.

(** ** Accounts of a call *)
Section CallAccounting.
Context `{bi : Builtins} {S : Type} `{sb : !Sandbox S}.
Implicit Types (st : state (S := S)) (code : pystr) (h : handoff)
  (d : gmap pystr value).

Lemma push_state_nonempty d st :
  d <> ∅ ->
  push_state d st =
    let '(s', r) := sbx_run_code remote_unloading_code (sbx (uploaded d st)) in
    let st2 := after_run remote_unloading_code s' (uploaded d st) in
    match r with
    | inl e => (st2, Raise e)
    | inr execution =>
        match error execution with
        | Some err =>
            (st2, Raise (ValueError (remote_error_message execution err)))
        | None =>
            (State (sbx st2) (final_answer st2) (managed_agents st2)
                   (additional_args st2)
                   (journal st2
                      ++ [Log (Message (Str.join nl (stdout execution)))
                              (Some 1)]),
             Return tt)
        end
    end.
Proof.
  intros Hd.
  assert (Hsize : (0 <? Z.of_nat (size d)) = true).
  { apply Z.ltb_lt. apply map_size_non_empty_iff in Hd. lia. }
  unfold push_state, bind at 1, bind_additional_args. rewrite Hsize.
  unfold bind at 1, upload_additional_args, bind at 1, get, files_write.
  cbn [additional_args sbx final_answer managed_agents journal].
  fold (uploaded d st). unfold bind. rewrite run_code_raise_errors_eq.
  destruct (sbx_run_code remote_unloading_code (sbx (uploaded d st)))
    as [s' [e|execution]]; [reflexivity|].
  by destruct (error execution).
Qed.

Lemma pushes_empty : pushes (∅ : gmap pystr value) = 0%nat.
Proof. unfold pushes. by rewrite decide_True. Qed.

Lemma pushes_nonempty d : d <> ∅ -> pushes d = 1%nat.
Proof. intros Hd. unfold pushes. by rewrite decide_False. Qed.

(** The accounts of the loop after a prefix of events. *)
Lemma call_account_compose fuel d st st1 st' (pre evs : list event) :
  journal st1 = journal st ++ pre ->
  final_answer st1
  = final_answer st || existsb FinalAnswerPattern.search (submissions pre) ->
  managed_agents st1 = managed_agents st ->
  (length (submissions pre) <= pushes d)%nat ->
  length (uploads pre) = pushes d ->
  agent_calls pre = [] ->
  Forall (fun u => fst u = state_path) (uploads pre) ->
  loop_account fuel st1 st' evs ->
  call_account fuel d st st' (pre ++ evs).
Proof.
  intros Hj Hf Hm Hs Hu Hc Hp [Hj' Hf' Hfuel Hup Hpath Hag].
  unfold submissions, uploads, agent_calls in *.
  split; unfold submissions, uploads, agent_calls; rewrite ?omap_app.
  - by rewrite Hj', Hj, app_assoc.
  - by rewrite Hf', Hf, existsb_app, orb_assoc.
  - rewrite length_app. lia.
  - rewrite !length_app, Hc, Hu, Hup. simpl. lia.
  - by apply Forall_app.
  - rewrite Hc. simpl. by rewrite <- Hm.
Qed.

Lemma loop_account_refl st : loop_account 0 st st [].
Proof.
  split; simpl; try done; try constructor.
  - by rewrite app_nil_r.
  - by rewrite orb_false_r.
Qed.

Lemma loop_account_fuel fuel fuel' st st' evs :
  (fuel <= fuel')%nat -> loop_account fuel st st' evs ->
  loop_account fuel' st st' evs.
Proof. intros Hle [? ? ? ? ? ?]. split; try done. lia. Qed.

(** The accounts of a call, for every sandbox and every fuel. *)
Lemma call_accounts (fuel : nat) code d st :
  exists evs, call_account fuel d st (fst (__call__ fuel code d st)) evs.
Proof.
  rewrite call_final_state.
  destruct (decide (d = ∅)) as [->|Hd].
  - rewrite push_state_empty.
    destruct (while_true fuel code
                (State (sbx st) (final_answer st) (managed_agents st) ∅
                       (journal st))) as [st' out] eqn:Hloop.
    destruct (while_true_account _ _ _ _ _ Hloop) as (evs & Hacc & _).
    exists ([] ++ evs). simpl fst.
    eapply (call_account_compose fuel ∅ st _ st' [] evs); [..|exact Hacc];
      simpl; rewrite ?pushes_empty, ?app_nil_r, ?orb_false_r; done.
  - rewrite (push_state_nonempty d st Hd).
    destruct (sbx_run_code remote_unloading_code (sbx (uploaded d st)))
      as [s' r].
    set (pre := [FilesWrite state_path (pickle_dumps d);
                 RunCode remote_unloading_code]).
    assert (Hfail : exists evs,
               call_account fuel d st
                 (after_run remote_unloading_code s' (uploaded d st)) evs).
    { exists (pre ++ []).
      eapply (call_account_compose fuel d st
                (after_run remote_unloading_code s' (uploaded d st)) _ pre []);
        [..|apply (loop_account_fuel 0); [lia | apply loop_account_refl]];
        simpl; rewrite ?pushes_nonempty by done; try done.
      - by rewrite <- app_assoc.
      - repeat constructor. }
    destruct r as [e|execution]; [exact Hfail|].
    destruct (error execution); [exact Hfail|].
    lazy beta iota zeta.
    match goal with
    | |- context [while_true fuel code ?s] =>
        destruct (while_true fuel code s) as [st' out] eqn:Hloop
    end.
    destruct (while_true_account _ _ _ _ _ Hloop) as (evs & Hacc & _).
    exists ((pre ++ [Log (Message (Str.join nl (stdout execution))) (Some 1)])
              ++ evs).
    simpl fst.
    eapply (call_account_compose fuel d st _ st'); [..|exact Hacc];
      simpl; rewrite ?pushes_nonempty by done; try done.
    + by rewrite <- !app_assoc.
    + repeat constructor.
Qed.

End CallAccounting.

(** ** Calls, results and resumed code *)
Section MoreCalls.
Import Text.
Context `{bi : Builtins} {S : Type} `{sb : !Sandbox S}.
Implicit Types (st : state (S := S)) (code : pystr) (h : handoff)
  (d : gmap pystr value).


Lemma one_line_sub (l k : pystr) :
  (forall c, c ∈ k -> c ∈ l) -> one_line l -> one_line k.
Proof.
  unfold one_line. rewrite !Forall_forall. auto.
Qed.

Lemma before_first_eq_sub (line : pystr) c :
  c ∈ Str.before_first_eq line -> c ∈ line.
Proof.
  induction line as [|x line IH]; [done|].
  rewrite before_first_eq_cons. destruct (x =? 61)%N; [by intros H; inversion H|].
  intros [->|Hin]%elem_of_cons; [left | right; auto].
Qed.

(** X6: when the text of the result has no line boundary, the lines of the
    resumed code are the assignment line followed by the lines of the old
    code from the call site on, except that a last line that is empty is
    lost. *)
Theorem X6_resumed_code_lines code i line (result : value) :
  Str.splitlines code !! i = Some line ->
  one_line (repr result) ->
  Str.splitlines (rewritten (Str.splitlines code) i line result)
  = drop_final_empty
      ((Str.strip (Str.before_first_eq line) ++ py " = " ++ repr result)
         :: drop i (Str.splitlines code)).
Proof.
  intros Hline Hrepr. unfold rewritten. apply splitlines_join.
  pose proof (splitlines_from_one_line [] code (List.Forall_nil _)) as Hall.
  fold (Str.splitlines code) in Hall.
  constructor; [|by apply Forall_drop].
  assert (Hl : one_line line).
  { rewrite Forall_forall in Hall. apply Hall. by eapply list_elem_of_lookup_2. }
  apply Forall_app. split.
  - apply (one_line_sub line); [|done].
    intros c Hc. by apply before_first_eq_sub, strip_sublist.
  - apply Forall_app. split; [|done]. repeat constructor.
Qed.

End MoreCalls.

(** ** Set-up *)
Section Init.
Context `{bi : Builtins} {S : Type} `{sb : !Sandbox S}.

Lemma install_list_elem (imports : list pystr) m :
  m ∈ install_list imports
  <-> m ∈ imports \/ m = py "smolagents" \/ m = py "sys".
Proof.
  unfold install_list. rewrite elem_of_remove_dups, elem_of_app.
  rewrite !elem_of_cons, elem_of_nil. tauto.
Qed.

Lemma install_list_nonempty (imports : list pystr) :
  (0 <? Z.of_nat (length (install_list imports))) = true.
Proof.
  apply Z.ltb_lt.
  assert (Hin : py "smolagents" ∈ install_list imports)
    by (apply install_list_elem; auto).
  destruct (install_list imports); [inversion Hin | simpl; lia].
Qed.

(** [__init__] in one equation. *)
Lemma init_eq (imports : list pystr) (tools : list Tool)
    (agents : option (gmap pystr agent)) (modules : list pystr) (sandbox : S) :
  __init__ imports tools agents modules sandbox =
    let '(s1, err) := sbx_commands_run (install_command imports) sandbox in
    let st1 :=
      State s1 false (default ∅ agents) ∅ (install_journal imports) in
    match err with
    | Some (c :: e) =>
        (st1, Raise (Exception (py "Error installing dependencies: " ++ c :: e)))
    | _ =>
        bind (run_code_raise_errors
                (tool_definition_code tools (default ∅ agents) modules))
             (fun execution =>
                logger_log (ExecutionLogs (stdout execution)) None)
             (State s1 false (default ∅ agents) ∅
                    (install_journal imports
                       ++ [Log (InstallationSucceeded (install_list imports))
                               (Some 0)]))
    end.
Proof.
  unfold __init__. fold (install_list imports).
  rewrite install_list_nonempty. fold (install_command imports).
  fold (tool_definition_code tools (default ∅ agents) modules).
  unfold bind at 1, logger_log at 1, record. unfold bind at 1.
  unfold bind at 1, commands_run. cbn [sbx new_executor].
  destruct (sbx_commands_run (install_command imports) sandbox) as [s1 err].
  destruct err as [[|c e]|]; reflexivity.
Qed.

Lemma part_of_refl (s : pystr) : part_of s s.
Proof. exists [], []. by rewrite app_nil_r. Qed.

Lemma part_of_app_l (p a s : pystr) : part_of p s -> part_of p (a ++ s).
Proof. intros (x & y & ->). exists (a ++ x), y. by rewrite <- app_assoc. Qed.

Lemma part_of_app_r (p s b : pystr) : part_of p s -> part_of p (s ++ b).
Proof. intros (x & y & ->). exists x, (y ++ b). by rewrite <- !app_assoc. Qed.

Lemma part_of_concat (f : pystr -> pystr) (l : list pystr) x :
  x ∈ l -> part_of (f x) (concat (map f l)).
Proof.
  induction l as [|y l IH]; [by intros H; inversion H|].
  intros [->|Hin]%elem_of_cons; simpl.
  - apply part_of_app_r, part_of_refl.
  - apply part_of_app_l. auto.
Qed.

Lemma part_of_join (sep : pystr) (l : list pystr) x :
  x ∈ l -> part_of x (Str.join sep l).
Proof.
  induction l as [|y l IH]; [by intros H; inversion H|].
  intros Hin. destruct l as [|z l].
  - apply list_elem_of_singleton in Hin as ->. apply part_of_refl.
  - change (Str.join sep (y :: z :: l)) with (y ++ sep ++ Str.join sep (z :: l)).
    apply elem_of_cons in Hin as [->|Hin].
    + apply part_of_app_r, part_of_refl.
    + apply part_of_app_l, part_of_app_l. auto.
Qed.

Lemma code_has_stubs_and_tools (tools : list Tool)
    (agents : gmap pystr agent) (modules : list pystr) :
  (forall n, is_Some (agents !! n) ->
             part_of (stub_code n) (tool_definition_code tools agents modules))
  /\ (forall tool, tool ∈ tools ->
        part_of (tool_code_of tool)
                (tool_definition_code tools agents modules))
  /\ part_of tool_base_class_code (tool_definition_code tools agents modules).
Proof.
  unfold tool_definition_code. repeat split.
  - intros n [callee Hn].
    do 3 apply part_of_app_l.
    assert (Hin : n ∈ map fst (map_to_list agents)).
    { apply list_elem_of_fmap. exists (n, callee). split; [done|].
      by apply elem_of_map_to_list. }
    destruct (part_of_concat (fun a => nl ++ nl ++ stub_code a) _ _ Hin)
      as (a & b & ->).
    exists (a ++ nl ++ nl), b. by rewrite <- !app_assoc.
  - intros tool Htool. do 2 apply part_of_app_l. apply part_of_app_r.
    apply part_of_join. apply list_elem_of_fmap. eauto.
  - apply part_of_app_l, part_of_app_r, part_of_refl.
Qed.

End Init.

(** ** Names on the remote side *)
Section RemoteNames.
Context `{bi : Builtins}.
Variable exec : pystr -> Remote.remote -> Remote.remote * (exn + Execution).


End RemoteNames.

(** ** The further theorems *)
Section TextTheorems.
Import Text.

(** X1: joining lines that have no line boundary with a line feed and
    splitting the result gives the lines back, except that a last line that
    is empty is lost. *)
Theorem X1_splitlines_of_join (lines : list pystr) :
  Forall one_line lines ->
  Str.splitlines (Str.join nl lines) = drop_final_empty lines.
Proof.
  intros Hall. destruct lines as [|l lines]; [reflexivity|].
  unfold Str.splitlines. rewrite splitlines_from_join by done.
  simpl. destruct lines; [by destruct l | reflexivity].
Qed.

Lemma X1_splitlines_of_join_witness :
  Str.splitlines (Str.join nl Cases.some_lines)
  = [py "a = 1"; []; py "b = 2"].
Proof.
  refine (X1_splitlines_of_join Cases.some_lines _).
  repeat constructor.
Defined.

(** X2: the target that the handler reads from a line is the text before
    the first equals sign of the line, without the white space around it:
    it has no equals sign, it neither starts nor ends with white space, and
    the line is white space, the target, white space, and then nothing or
    an equals sign and the rest. *)
Theorem X2_target_of_line (line : pystr) :
  let variable := Str.strip (Str.before_first_eq line) in
  (61%N ∉ variable)
  /\ trimmed variable
  /\ exists a b rest,
       line = a ++ variable ++ b ++ rest
       /\ blank a /\ blank b
       /\ (rest = [] \/ exists rest', rest = 61%N :: rest').
Proof.
  intros variable. subst variable.
  destruct (before_first_eq_spec line) as [Hno Hsplit].
  destruct (strip_spec (Str.before_first_eq line))
    as [(a & b & Hs & Ha & Hb) Htrim].
  split; [intros Hin; by apply Hno, strip_sublist|].
  split; [exact Htrim|].
  destruct Hsplit as [Heq | [rest Heq]].
  - exists a, b, []. rewrite app_nil_r. repeat split; auto.
    by transitivity (Str.before_first_eq line).
  - exists a, b, (61%N :: rest). repeat split; eauto.
    transitivity (Str.before_first_eq line ++ 61%N :: rest); [exact Heq|].
    rewrite Hs at 1. by rewrite <- !app_assoc.
Qed.

End TextTheorems.

Section CallTheorems.
Import Text.
Context `{bi : Builtins} {S : Type} `{sb : !Sandbox S}.
Implicit Types (st : state (S := S)) (code : pystr) (h : handoff)
  (d : gmap pystr value).

(** X8: when the upload of a non-empty dictionary is followed by a
    sandbox exception on the loading code, be it an interception, the
    exception passes to the caller as it is: the push is outside the
    [try], no agent is called and [code_action] is never submitted. *)
Theorem X8_failed_push_skips_code (fuel : nat) code d st s' e :
  d <> ∅ ->
  sbx_run_code remote_unloading_code (sbx (uploaded d st)) = (s', inl e) ->
  __call__ fuel code d st
  = (after_run remote_unloading_code s' (uploaded d st), Raise e).
Proof.
  intros Hd Hrun. unfold __call__, bind at 1.
  rewrite (push_state_nonempty d st Hd), Hrun. reflexivity.
Qed.

(** X11: after a call the flag is set exactly when it was set before or
    one of the codes submitted during the call matches the pattern; the
    call submits at most [fuel] codes, and one more when it pushes a
    non-empty dictionary. *)
Theorem X11_call_flag (fuel : nat) code d st :
  let st' := fst (__call__ fuel code d st) in
  exists evs,
    journal st' = journal st ++ evs
    /\ final_answer st'
       = final_answer st
         || existsb FinalAnswerPattern.search (submissions evs)
    /\ (length (submissions evs) <= fuel + pushes d)%nat.
Proof.
  intros st'. destruct (call_accounts fuel code d st) as [evs []].
  by exists evs.
Qed.

(** X14: when the installation reports a non-empty error, [__init__]
    raises [Exception] with that error and submits no code: the journal
    holds the first log message and the install command only. *)
Theorem X14_init_install_failure (imports : list pystr) (tools : list Tool)
    (agents : option (gmap pystr agent)) (modules : list pystr)
    (sandbox s1 : S) c e :
  sbx_commands_run (install_command imports) sandbox = (s1, Some (c :: e)) ->
  __init__ imports tools agents modules sandbox
  = (State s1 false (default ∅ agents) ∅ (install_journal imports),
     Raise (Exception (py "Error installing dependencies: " ++ c :: e))).
Proof. intros Hrun. by rewrite init_eq, Hrun. Qed.

(** X15: when the installation reports no error (none, or an empty one)
    and the sandbox completes the definitions, [__init__] returns an
    executor with the given agents, an empty dictionary, and the flag set
    exactly when the submitted definitions match the pattern. *)
Theorem X15_init_completes (imports : list pystr) (tools : list Tool)
    (agents : option (gmap pystr agent)) (modules : list pystr)
    (sandbox s1 s2 : S) err (execution : Execution) :
  sbx_commands_run (install_command imports) sandbox = (s1, err) ->
  err = None \/ err = Some [] ->
  sbx_run_code (tool_definition_code tools (default ∅ agents) modules) s1
  = (s2, inr execution) ->
  error execution = None ->
  __init__ imports tools agents modules sandbox
  = (State s2
           (FinalAnswerPattern.search
              (tool_definition_code tools (default ∅ agents) modules))
           (default ∅ agents) ∅
           (install_journal imports
              ++ [Log (InstallationSucceeded (install_list imports)) (Some 0);
                  RunCode
                    (tool_definition_code tools (default ∅ agents) modules);
                  Log (ExecutionLogs (stdout execution)) None]),
     Return tt).
Proof.
  intros Hinstall Herr Hrun Hok. rewrite init_eq, Hinstall.
  assert (Hrest :
    bind (run_code_raise_errors
            (tool_definition_code tools (default ∅ agents) modules))
         (fun execution => logger_log (ExecutionLogs (stdout execution)) None)
         (State s1 false (default ∅ agents) ∅
                (install_journal imports
                   ++ [Log (InstallationSucceeded (install_list imports))
                           (Some 0)]))
    = (State s2
             (FinalAnswerPattern.search
                (tool_definition_code tools (default ∅ agents) modules))
             (default ∅ agents) ∅
             (install_journal imports
                ++ [Log (InstallationSucceeded (install_list imports)) (Some 0);
                    RunCode
                      (tool_definition_code tools (default ∅ agents) modules);
                    Log (ExecutionLogs (stdout execution)) None]),
       Return tt)).
  { unfold bind. rewrite run_code_raise_errors_eq. cbn [sbx].
    rewrite Hrun, Hok. unfold logger_log, record. simpl.
    reflexivity. }
  destruct Herr as [-> | ->]; exact Hrest.
Qed.

(** X16: the packages installed are the given imports together with
    [smolagents] and [sys], each of them once. *)
Theorem X16_install_list (imports : list pystr) :
  NoDup (install_list imports)
  /\ forall m, m ∈ install_list imports
               <-> m ∈ imports \/ m = py "smolagents" \/ m = py "sys".
Proof. split; [apply NoDup_remove_dups | apply install_list_elem]. Qed.

(** X17: [__init__] submits one code, or none when the installation
    failed; that code holds the base class, the code of every tool and,
    for every managed agent, the stub of that agent. *)
Theorem X17_init_defines_stubs (imports : list pystr) (tools : list Tool)
    (agents : gmap pystr agent) (modules : list pystr) (sandbox : S) :
  let definitions := tool_definition_code tools agents modules in
  submissions
    (journal (fst (__init__ imports tools (Some agents) modules sandbox)))
  = match snd (sbx_commands_run (install_command imports) sandbox) with
    | Some (_ :: _) => []
    | _ => [definitions]
    end
  /\ (forall n, is_Some (agents !! n) -> part_of (stub_code n) definitions)
  /\ (forall tool, tool ∈ tools -> part_of (tool_code_of tool) definitions)
  /\ part_of tool_base_class_code definitions.
Proof.
  intros definitions. split; [|apply code_has_stubs_and_tools].
  rewrite init_eq. simpl default. fold definitions.
  destruct (sbx_commands_run (install_command imports) sandbox) as [s1 err].
  assert (Hrest : forall st1 : state (S := S),
    submissions (journal st1) = [] ->
    submissions
      (journal
         (fst (bind (run_code_raise_errors definitions)
                    (fun execution =>
                       logger_log (ExecutionLogs (stdout execution)) None)
                    st1)))
    = [definitions]).
  { intros st1 Hst1. unfold bind. rewrite run_code_raise_errors_eq.
    destruct (sbx_run_code definitions (sbx st1)) as [s2 [e|execution]];
      [|destruct (error execution)];
      simpl; rewrite ?submissions_app, Hst1; reflexivity. }
  destruct err as [[|c e]|]; simpl; try reflexivity; by apply Hrest.
Qed.

End CallTheorems.

Section RemoteTheorems.
Context `{bi : Builtins}.
Variable exec : pystr -> Remote.remote -> Remote.remote * (exn + Execution).


End RemoteTheorems.

Section Witnesses.
Import Doubles Scenario Cases Text.

Lemma X6_resumed_code_lines_witness :
  Str.splitlines
    (rewritten (Str.splitlines three_lines) 1 (py "x = helper()") (42 : value))
  = drop_final_empty
      ((Str.strip (Str.before_first_eq (py "x = helper()")) ++ py " = "
        ++ repr (42 : value))
         :: drop 1 (Str.splitlines three_lines)).
Proof.
  refine (X6_resumed_code_lines three_lines 1 (py "x = helper()") 42 _ _).
  - vm_compute. reflexivity.
  - repeat constructor.
Defined.


Lemma X8_failed_push_skips_code_witness :
  __call__ 3 three_lines one_key intercept_line_7
  = (after_run remote_unloading_code [inr completed]
       (uploaded one_key intercept_line_7),
     Raise (interruption (py "helper") (Some 7))).
Proof.
  refine (X8_failed_push_skips_code 3 three_lines one_key intercept_line_7
            [inr completed] (interruption (py "helper") (Some 7)) _ _).
  - apply (bool_decide_unpack _). vm_compute. exact I.
  - reflexivity.
Defined.

Lemma X14_init_install_failure_witness :
  __init__ (sb := offline) [py "numpy"] [] (Some helper_agents) [py "sys"] tt
  = (State tt false helper_agents ∅ (install_journal [py "numpy"]),
     Raise (Exception (py "Error installing dependencies: no network"))).
Proof.
  refine (X14_init_install_failure (sb := offline) [py "numpy"] []
            (Some helper_agents) [py "sys"] tt tt _ _ _).
  reflexivity.
Defined.

Lemma X15_init_completes_witness :
  __init__ [py "numpy"] [] (Some helper_agents) [py "sys"] [inr completed]
  = (State [] false helper_agents ∅
       (install_journal [py "numpy"]
          ++ [Log (InstallationSucceeded (install_list [py "numpy"])) (Some 0);
              RunCode (tool_definition_code [] helper_agents [py "sys"]);
              Log (ExecutionLogs [py "done"]) None]),
     Return tt).
Proof.
  refine (X15_init_completes [py "numpy"] [] (Some helper_agents) [py "sys"]
            [inr completed] [inr completed] [] None completed _ _ _ _).
  - reflexivity.
  - by left.
  - reflexivity.
  - reflexivity.
Defined.


End Witnesses.

(** * The call with failing local calls: properties *)

(** ** Equations *)
Section FaultyEquations.
Context `{bi : Builtins} {S : Type} `{sb : !Sandbox S} `{ft : !Faults S}.
Implicit Types (st : state (S := S)) (code : pystr) (h : handoff).

Lemma faulty_on_interruption_unknown code h st :
  managed_agents st !! agent_name h = None ->
  Faulty.on_interruption code h st
  = (after_unknown h st, Raise (KeyError (agent_name h))).
Proof.
  intros Hnone.
  unfold Faulty.on_interruption, bind, logger_log, record, get, raise,
    after_unknown.
  simpl. rewrite Hnone. reflexivity.
Qed.

(** The handler for a managed agent, call by call. *)
Lemma faulty_on_interruption_eq code h st callee :
  managed_agents st !! agent_name h = Some callee ->
  Faulty.on_interruption code h st =
    let result := callee (args h) (kwargs h) in
    let bundle := <[agent_name h := result]> (additional_args st) in
    match agent_fault (agent_name h) (args h) (kwargs h) with
    | Some e => (after_agent_call h st, Raise e)
    | None =>
        match pickle_fault bundle with
        | Some e => (after_store h callee (sbx st) st, Raise e)
        | None =>
            match write_fault state_path (pickle_dumps bundle) (sbx st) with
            | Some (s', e) => (after_store h callee s' st, Raise e)
            | None =>
                (after_handoff h callee st,
                 let lines := Str.splitlines code in
                 match guarded_index (line_number h) lines with
                 | Some i =>
                     match lines !! i with
                     | Some line =>
                         match repr_fault result with
                         | Some e => Raise e
                         | None => Return (rewritten lines i line result)
                         end
                     | None => Raise IndexError
                     end
                 | None =>
                     Raise (ValueError
                              (invalid_line_message (line_number h) code))
                 end)
            end
        end
    end.
Proof.
  intros Hcallee.
  unfold Faulty.on_interruption, Faulty.upload_additional_args,
    Faulty.files_write, Faulty.raise_if, bind, logger_log, record, get,
    setitem_additional_args, files_write, ret, raise, after_handoff,
    after_agent_call, after_store, rewritten.
  simpl. rewrite Hcallee. simpl.
  destruct (agent_fault (agent_name h) (args h) (kwargs h)) as [e|]; simpl;
    [by rewrite <- app_assoc|].
  destruct (pickle_fault _) as [e|]; simpl; [by rewrite <- app_assoc|].
  destruct (write_fault _ _ _) as [[s' e]|]; simpl;
    [by rewrite <- app_assoc|].
  rewrite <- !app_assoc. simpl.
  destruct (guarded_index (line_number h) (Str.splitlines code)) as [i|];
    [destruct (Str.splitlines code !! i);
       [destruct (repr_fault _)|]|]; reflexivity.
Qed.



Lemma faulty_while_true_S fuel code st :
  Faulty.while_true (Datatypes.S fuel) code st =
    match sbx_run_code code (sbx st) with
    | (s', inl (AgentCallInterruption h)) =>
        bind (Faulty.on_interruption code h) (Faulty.while_true fuel)
             (after_run code s' st)
    | (s', inl e) => (after_run code s' st, Raise e)
    | (s', inr execution) =>
        (after_run code s' st,
         match error execution with
         | Some err => Raise (ValueError (remote_error_message execution err))
         | None => Return execution
         end)
    end.
Proof.
  simpl. unfold try_except_interruption. rewrite run_code_raise_errors_eq.
  destruct (sbx_run_code code (sbx st)) as [s' [[]|execution]];
    try reflexivity.
  by destruct (error execution).
Qed.


Lemma faulty_call_after_push fuel code d st0 st :
  Faulty.push_state d st0 = (st, Return tt) ->
  Faulty.__call__ fuel code d st0 =
    bind (Faulty.while_true fuel code) Faulty.return_output st.
Proof.
  intros Hpush. unfold Faulty.__call__. unfold bind at 1. rewrite Hpush.
  reflexivity.
Qed.


Lemma faulty_call_run_phase fuel code d st0 :
  Faulty.__call__ fuel code d st0
  = bind (Faulty.run_phase fuel code d) Faulty.return_output st0.
Proof.
  unfold Faulty.__call__, Faulty.run_phase, bind.
  destruct (Faulty.push_state d st0) as [st [[]| |]]; reflexivity.
Qed.

Lemma faulty_push_state_empty st :
  Faulty.push_state ∅ st =
    (State (sbx st) (final_answer st) (managed_agents st) ∅ (journal st),
     Return tt).
Proof. reflexivity. Qed.

Lemma faulty_return_output_eq (execution : Execution) st :
  Faulty.return_output execution st =
    (st,
     let logs := Str.join nl (stdout execution) in
     match results execution with
     | [] => Return (None, logs, final_answer st)
     | _ :: _ =>
         match Faulty.main_result_output (results execution) with
         | Some (inr output) => Return (Some output, logs, final_answer st)
         | Some (inl e) => Raise e
         | None =>
             if final_answer st
             then Raise (ValueError no_main_result_message)
             else Return (None, logs, false)
         end
     end).
Proof.
  unfold Faulty.return_output, bind, get, ret, raise.
  destruct (results execution) as [|r rs]; [reflexivity|].
  destruct (Faulty.main_result_output (r :: rs)) as [[e|v]|];
    try reflexivity.
  by destruct (final_answer st).
Qed.

Lemma faulty_main_result_output_cons (r : Result) rest :
  Faulty.main_result_output (r :: rest)
  = if is_main_result r then
      match first_not_none image_attributes r with
      | Some image_output => Some (Faulty.decode_image image_output)
      | None =>
          match first_not_none document_attributes r with
          | Some v => Some (inr v)
          | None => Faulty.main_result_output rest
          end
      end
    else Faulty.main_result_output rest.
Proof. reflexivity. Qed.

(** The state push of a dictionary that is not empty: the pickling or the
    write may raise; otherwise it is the push of the first part. *)
Lemma faulty_push_state_nonempty d st :
  d <> ∅ ->
  Faulty.push_state d st =
    match pickle_fault d with
    | Some e =>
        (State (sbx st) (final_answer st) (managed_agents st) d (journal st),
         Raise e)
    | None =>
        match write_fault state_path (pickle_dumps d) (sbx st) with
        | Some (s', e) =>
            (State s' (final_answer st) (managed_agents st) d (journal st),
             Raise e)
        | None => push_state d st
        end
    end.
Proof.
  intros Hd.
  assert (Hsize : (0 <? Z.of_nat (size d)) = true).
  { apply Z.ltb_lt. apply map_size_non_empty_iff in Hd. lia. }
  unfold Faulty.push_state, push_state, bind at 1, bind_additional_args.
  rewrite Hsize.
  unfold bind at 1, Faulty.upload_additional_args, bind at 1, get.
  unfold bind at 1, Faulty.raise_if.
  cbn [additional_args sbx final_answer managed_agents journal].
  destruct (pickle_fault d) as [e|]; [reflexivity|].
  unfold ret, Faulty.files_write.
  cbn [additional_args sbx final_answer managed_agents journal].
  destruct (write_fault state_path (pickle_dumps d) (sbx st)) as [[s' e]|];
    reflexivity.
Qed.

End FaultyEquations.

(** ** Agreement with the call whose local calls return *)
Section WithoutFaults.
Context `{bi : Builtins} {S : Type} `{sb : !Sandbox S}.
Implicit Types (st : state (S := S)) (code : pystr) (h : handoff).

Lemma on_interruption_without_faults code h st :
  Faulty.on_interruption (ft := no_faults S) code h st
  = on_interruption code h st.
Proof.
  destruct (managed_agents st !! agent_name h) as [callee|] eqn:Hcallee.
  - rewrite (faulty_on_interruption_eq (ft := no_faults S) _ _ _ callee Hcallee),
      (on_interruption_eq _ _ _ callee Hcallee).
    simpl.
    destruct (guarded_index (line_number h) (Str.splitlines code)) as [i|];
      [destruct (Str.splitlines code !! i)|]; reflexivity.
  - rewrite (faulty_on_interruption_unknown (ft := no_faults S) _ _ _ Hcallee),
      (on_interruption_unknown _ _ _ Hcallee).
    reflexivity.
Qed.

Lemma while_true_without_faults fuel code st :
  Faulty.while_true (ft := no_faults S) fuel code st = while_true fuel code st.
Proof.
  revert code st. induction fuel as [|fuel IH]; intros code st;
    [reflexivity|].
  rewrite (faulty_while_true_S (ft := no_faults S)), while_true_S.
  destruct (sbx_run_code code (sbx st)) as [s' [[| | | |h|]|execution]];
    try reflexivity.
Qed.

Lemma main_result_output_without_faults (rs : list Result) :
  Faulty.main_result_output (ft := no_faults S) rs
  = option_map inr (main_result_output rs).
Proof.
  induction rs as [|r rs IH]; [reflexivity|].
  rewrite (faulty_main_result_output_cons (ft := no_faults S)),
    main_result_output_cons.
  destruct (is_main_result r); [|exact IH].
  destruct (first_not_none image_attributes r); [reflexivity|].
  destruct (first_not_none document_attributes r); [reflexivity|exact IH].
Qed.

Lemma return_output_without_faults (execution : Execution) st :
  Faulty.return_output (ft := no_faults S) execution st
  = return_output execution st.
Proof.
  rewrite (faulty_return_output_eq (ft := no_faults S)).
  unfold return_output, bind, get, ret, raise.
  rewrite main_result_output_without_faults.
  destruct (results execution) as [|r rs]; [reflexivity|].
  destruct (main_result_output (r :: rs)); simpl; [reflexivity|].
  by destruct (final_answer st).
Qed.

Lemma push_state_without_faults d st :
  Faulty.push_state (ft := no_faults S) d st = push_state d st.
Proof. reflexivity. Qed.

(** Where no local call fails, the call is the call of the first part. *)
Lemma call_without_faults fuel code d st :
  Faulty.__call__ (ft := no_faults S) fuel code d st = __call__ fuel code d st.
Proof.
  unfold Faulty.__call__, __call__, bind.
  rewrite push_state_without_faults.
  destruct (push_state d st) as [st1 [[]| |]]; try reflexivity.
  rewrite while_true_without_faults.
  destruct (while_true fuel code st1) as [st2 [execution| |]];
    try reflexivity.
  apply return_output_without_faults.
Qed.

End WithoutFaults.

(** ** Failures of the hand-off, on any submission of a call *)
Section FaultyHandOff.
Context `{bi : Builtins} {S : Type} `{sb : !Sandbox S} `{ft : !Faults S}.
Implicit Types (st : state (S := S)) (code : pystr) (h : handoff).





End FaultyHandOff.

(** ** Result extraction *)
Section FaultyResults.
Context `{bi : Builtins} {S : Type} `{sb : !Sandbox S} `{ft : !Faults S}.
Implicit Types (st : state (S := S)) (code : pystr) (h : handoff).

Lemma faulty_main_result_output_no_main (rs : list Result) :
  (forall r, r ∈ rs -> is_main_result r = false) ->
  Faulty.main_result_output rs = None.
Proof.
  induction rs as [|r rs IH]; intros Hnone; [reflexivity|].
  simpl. rewrite (Hnone r) by left.
  apply IH. intros r' Hr'. apply Hnone. by right.
Qed.

Lemma faulty_main_result_output_filter (rs : list Result) :
  Faulty.main_result_output rs
  = Faulty.main_result_output (List.filter is_main_result rs).
Proof.
  induction rs as [|r rs IH]; [reflexivity|].
  simpl. destruct (is_main_result r) eqn:Hmain; simpl.
  - rewrite Hmain, IH. reflexivity.
  - exact IH.
Qed.

(** C6, amended: the extraction loop looks at the results flagged as main
    only.  For such a result a [jpeg] or else a [png] payload that is not
    [None] is decoded from base64 and opened as an image, whatever the
    document attributes and the later results hold, and a failure of the
    decoding or of the opening is raised; without an image the output is
    the first attribute that is not [None] in the order chart, data, html,
    javascript, json, latex, markdown, pdf, svg, text.  The call returns
    that output with the logs and the flag.  When no result is flagged the
    loop ends without output, whatever the unflagged results hold; the call
    then returns [None] and the logs when there is no result at all or the
    flag is not set, and raises the missing-result error otherwise. *)
Theorem C6_result_extraction :
  (forall rs : list Result,
      Faulty.main_result_output rs
      = Faulty.main_result_output (List.filter is_main_result rs))
  /\ (forall (r : Result) rest image,
        is_main_result r = true ->
        first_not_none image_attributes r = Some image ->
        Faulty.main_result_output (r :: rest)
        = Some (Faulty.decode_image image))
  /\ (forall r : Result,
        first_not_none image_attributes r
        = match jpeg r with Some s => Some s | None => png r end)
  /\ (forall image,
        (b64decode_fault image = None ->
         Image_open_fault (b64decode image) = None ->
         Faulty.decode_image image = inr (Image_open (b64decode image)))
        /\ (forall e, b64decode_fault image = Some e ->
                      Faulty.decode_image image = inl e)
        /\ (forall e, b64decode_fault image = None ->
                      Image_open_fault (b64decode image) = Some e ->
                      Faulty.decode_image image = inl e))
  /\ (forall (r : Result) rest,
        is_main_result r = true -> jpeg r = None -> png r = None ->
        Faulty.main_result_output (r :: rest)
        = match first_not_none document_attributes r with
          | Some v => Some (inr v)
          | None => Faulty.main_result_output rest
          end)
  /\ document_attributes
     = [chart; data; html; javascript; json; latex; markdown; pdf; svg;
        text]
  /\ (forall (r : Result) v,
        first_not_none document_attributes r = Some v <->
        exists i attribute,
          document_attributes !! i = Some attribute
          /\ attribute r = Some v
          /\ forall j earlier, (j < i)%nat ->
               document_attributes !! j = Some earlier -> earlier r = None)
  /\ (forall rs : list Result,
        (forall r, r ∈ rs -> is_main_result r = false) ->
        Faulty.main_result_output rs = None)
  /\ (forall fuel code d st0 st' (execution : Execution),
        Faulty.run_phase fuel code d st0 = (st', Return execution) ->
        let logs := Str.join nl (stdout execution) in
        Faulty.__call__ fuel code d st0 =
          (st',
           match results execution with
           | [] => Return (None, logs, final_answer st')
           | _ :: _ =>
               match Faulty.main_result_output (results execution) with
               | Some (inr output) =>
                   Return (Some output, logs, final_answer st')
               | Some (inl e) => Raise e
               | None =>
                   if final_answer st'
                   then Raise (ValueError no_main_result_message)
                   else Return (None, logs, false)
               end
           end)).
Proof.
  split; [exact faulty_main_result_output_filter|].
  split.
  { intros r rest image Hmain Himg.
    by rewrite faulty_main_result_output_cons, Hmain, Himg. }
  split; [exact first_image_attribute|].
  split.
  { intros image. unfold Faulty.decode_image. repeat split.
    - by intros -> ->.
    - by intros e ->.
    - by intros e -> ->. }
  split.
  { intros r rest Hmain Hj Hp.
    by rewrite faulty_main_result_output_cons, Hmain, first_image_attribute,
         Hj, Hp. }
  split; [reflexivity|].
  split; [intros r v; apply first_not_none_Some|].
  split; [exact faulty_main_result_output_no_main|].
  intros fuel code d st0 st' execution Hrun logs.
  rewrite faulty_call_run_phase. unfold bind. rewrite Hrun.
  apply faulty_return_output_eq.
Qed.

End FaultyResults.

(** ** Outcomes and accounts, whatever the local calls do *)
Section FaultyAccounting.
Context `{bi : Builtins} {S : Type} `{sb : !Sandbox S} `{ft : !Faults S}.
Implicit Types (st : state (S := S)) (code : pystr) (h : handoff)
  (d : gmap pystr value).

Lemma agent_calls_app (evs evs' : list event) :
  agent_calls (evs ++ evs') = agent_calls evs ++ agent_calls evs'.
Proof. apply omap_app. Qed.

Lemma uploads_app (evs evs' : list event) :
  uploads (evs ++ evs') = uploads evs ++ uploads evs'.
Proof. apply omap_app. Qed.

(** The events of the handler: no submission, at most one agent call and
    at most one upload, and both when it returns. *)
Lemma faulty_handler_account code h st st' out :
  Faulty.on_interruption code h st = (st', out) ->
  exists evs,
    journal st' = journal st ++ evs
    /\ final_answer st' = final_answer st
    /\ managed_agents st' = managed_agents st
    /\ submissions evs = []
    /\ Forall (fun u => fst u = state_path) (uploads evs)
    /\ Forall (fun n => is_Some (managed_agents st !! n)) (agent_calls evs)
    /\ (length (uploads evs) <= length (agent_calls evs) <= 1)%nat
    /\ (forall c, out = Return c ->
          length (uploads evs) = 1%nat /\ length (agent_calls evs) = 1%nat)
    /\ out <> OutOfFuel.
Proof.
  destruct (managed_agents st !! agent_name h) as [callee|] eqn:Hcallee.
  - rewrite (faulty_on_interruption_eq _ _ _ callee Hcallee). cbv zeta.
    assert (Hknown : is_Some (managed_agents st !! agent_name h))
      by (by rewrite Hcallee).
    destruct (agent_fault _ _ _) as [e|].
    { intros [= <- <-]. eexists. split; [reflexivity|].
      repeat split; simpl; try done; try lia; repeat constructor; done. }
    destruct (pickle_fault _) as [e|].
    { intros [= <- <-]. eexists. split; [reflexivity|].
      repeat split; simpl; try done; try lia; repeat constructor; done. }
    destruct (write_fault _ _ _) as [[s' e]|].
    { intros [= <- <-]. eexists. split; [reflexivity|].
      repeat split; simpl; try done; try lia; repeat constructor; done. }
    intros [= <- <-]. eexists. split; [reflexivity|].
    repeat split; simpl; try done; try lia; repeat constructor; try done.
    destruct (guarded_index _ _) as [i|];
      [destruct (_ !! i); [destruct (repr_fault _)|]|]; discriminate.
  - rewrite faulty_on_interruption_unknown by exact Hcallee.
    intros [= <- <-]. eexists. split; [reflexivity|].
    repeat split; simpl; try done; try lia; repeat constructor; done.
Qed.

(** The accounts of the loop, for every sandbox, every fuel and whatever
    the local calls do. *)
Lemma faulty_while_true_account fuel code st st' out :
  Faulty.while_true fuel code st = (st', out) ->
  exists evs,
    fault_account fuel 0 st st' evs
    /\ fault_balance fuel evs out
    /\ (forall execution, out = Return execution -> error execution = None).
Proof.
  revert code st st' out. induction fuel as [|fuel IH];
    intros code st st' out Hrun.
  - injection Hrun as <- <-. exists []. split; [|split; [done|discriminate]].
    split; simpl; try done; try constructor.
    + by rewrite app_nil_r.
    + by rewrite orb_false_r.
  - rewrite faulty_while_true_S in Hrun.
    destruct (sbx_run_code code (sbx st)) as [s' r].
    assert (Hone : forall out',
               (exists e, out' = Raise e) \/
               (exists x, out' = Return x /\ error x = None) ->
               (after_run code s' st, out') = (st', out) ->
               exists evs,
                 fault_account (Datatypes.S fuel) 0 st st' evs
                 /\ fault_balance (Datatypes.S fuel) evs out
                 /\ (forall execution,
                        out = Return execution -> error execution = None)).
    { intros out' Hout [= <- <-]. exists [RunCode code]. split; [|split].
      - split; simpl; try done; try lia; try constructor.
        by rewrite orb_false_r.
      - destruct Hout as [[e ->] | (x & -> & _)]; simpl; lia.
      - intros execution ->.
        destruct Hout as [[e [=]] | (x & [= ->] & Herr)]. done. }
    destruct r as [e|execution].
    + destruct e as [| | | |h|];
        try (apply (Hone _ (or_introl (ex_intro _ _ eq_refl)) Hrun)).
      unfold bind in Hrun.
      destruct (Faulty.on_interruption code h (after_run code s' st))
        as [st1 out1] eqn:Hhandler.
      destruct (faulty_handler_account _ _ _ _ _ Hhandler)
        as (evh & Hj & Hf & Hm & Hs & Hp & Ha & Hle & Hret & Hfuel).
      simpl in Hj, Hf, Hm, Ha.
      destruct out1 as [c|e|]; [| |done].
      * destruct (IH _ _ _ _ Hrun)
          as (evs & [Hj' Hf' Hm' Hfuel' Hup' Hpath' Hag'] & Hbal & Herr).
        destruct (Hret c eq_refl) as [Hu1 Hc1].
        exists (RunCode code :: evh ++ evs). split; [|split; [|exact Herr]].
        -- change (RunCode code :: evh ++ evs)
             with ([RunCode code] ++ evh ++ evs).
           split;
             rewrite ?submissions_app, ?agent_calls_app, ?uploads_app,
               ?length_app, ?Hs; simpl.
           ++ rewrite Hj', Hj. by rewrite <- !app_assoc.
           ++ rewrite Hf', Hf. by rewrite orb_assoc.
           ++ by rewrite Hm', Hm.
           ++ lia.
           ++ lia.
           ++ by apply Forall_app.
           ++ apply Forall_app. split; [done|]. by rewrite <- Hm.
        -- unfold fault_balance in *.
           change (RunCode code :: evh ++ evs)
             with ([RunCode code] ++ evh ++ evs).
           rewrite !submissions_app, !agent_calls_app, !uploads_app,
             !length_app, Hs.
           simpl. destruct out; lia.
      * injection Hrun as <- <-.
        exists (RunCode code :: evh). split; [|split; [|discriminate]].
        -- change (RunCode code :: evh) with ([RunCode code] ++ evh).
           split;
             rewrite ?submissions_app, ?agent_calls_app, ?uploads_app,
               ?length_app, ?Hs; simpl.
           ++ rewrite Hj. by rewrite <- !app_assoc.
           ++ rewrite Hf. by rewrite orb_false_r.
           ++ done.
           ++ lia.
           ++ lia.
           ++ done.
           ++ done.
        -- unfold fault_balance.
           change (RunCode code :: evh) with ([RunCode code] ++ evh).
           rewrite !submissions_app, !agent_calls_app, !uploads_app,
             !length_app, Hs.
           simpl. lia.
    + destruct (error execution) eqn:Herr.
      * apply (Hone _ (or_introl (ex_intro _ _ eq_refl)) Hrun).
      * apply (Hone _ (or_intror (ex_intro _ execution (conj eq_refl Herr)))
                 Hrun).
Qed.

Lemma fault_account_compose fuel pushed st st1 st' (pre evs : list event) :
  journal st1 = journal st ++ pre ->
  final_answer st1
  = final_answer st || existsb FinalAnswerPattern.search (submissions pre) ->
  managed_agents st1 = managed_agents st ->
  (length (submissions pre) <= pushed)%nat ->
  length (uploads pre) = pushed ->
  agent_calls pre = [] ->
  Forall (fun u => fst u = state_path) (uploads pre) ->
  fault_account fuel 0 st1 st' evs ->
  fault_account fuel pushed st st' (pre ++ evs)
  /\ (length (uploads evs) = length (agent_calls evs) ->
      length (uploads (pre ++ evs))
      = (length (agent_calls (pre ++ evs)) + pushed)%nat).
Proof.
  intros Hj Hf Hm Hs Hu Hc Hp [Hj' Hf' Hm' Hfuel Hup Hpath Hag].
  unfold submissions, uploads, agent_calls in *.
  split; [split|]; unfold submissions, uploads, agent_calls;
    rewrite ?omap_app.
  - by rewrite Hj', Hj, app_assoc.
  - by rewrite Hf', Hf, existsb_app, orb_assoc.
  - by rewrite Hm', Hm.
  - rewrite length_app. lia.
  - rewrite !length_app, Hc, Hu. simpl. lia.
  - by apply Forall_app.
  - rewrite Hc. simpl. by rewrite <- Hm.
  - intros Heq. rewrite !length_app, Hc, Hu, Heq. simpl. lia.
Qed.

(** The state and the outcome of a call from those of its loop. *)
Lemma faulty_call_from_loop fuel code d st0 st st1 out :
  Faulty.push_state d st0 = (st, Return tt) ->
  Faulty.while_true fuel code st = (st1, out) ->
  fst (Faulty.__call__ fuel code d st0) = st1
  /\ (forall r, snd (Faulty.__call__ fuel code d st0) = Return r ->
                exists execution, out = Return execution).
Proof.
  intros Hpush Hloop.
  rewrite (faulty_call_after_push _ _ _ _ _ Hpush). unfold bind.
  rewrite Hloop. destruct out as [execution| |]; simpl; try done.
  rewrite faulty_return_output_eq. eauto.
Qed.

(** The accounts of a call, for every sandbox, every fuel and whatever the
    local calls do. *)
Lemma faulty_call_accounts (fuel : nat) code d st :
  exists evs,
    fault_account fuel (pushes d) st (fst (Faulty.__call__ fuel code d st)) evs
    /\ (forall r, snd (Faulty.__call__ fuel code d st) = Return r ->
          length (uploads evs)
          = (length (agent_calls evs) + pushes d)%nat).
Proof.
  assert (Hloop : forall st1 (pre : list event),
            Faulty.push_state d st = (st1, Return tt) ->
            journal st1 = journal st ++ pre ->
            final_answer st1
            = final_answer st
              || existsb FinalAnswerPattern.search (submissions pre) ->
            managed_agents st1 = managed_agents st ->
            (length (submissions pre) <= pushes d)%nat ->
            length (uploads pre) = pushes d ->
            agent_calls pre = [] ->
            Forall (fun u => fst u = state_path) (uploads pre) ->
            exists evs,
              fault_account fuel (pushes d) st
                (fst (Faulty.__call__ fuel code d st)) evs
              /\ (forall r, snd (Faulty.__call__ fuel code d st) = Return r ->
                    length (uploads evs)
                    = (length (agent_calls evs) + pushes d)%nat)).
  { intros st1 pre Hpush Hj Hf Hm Hs Hu Hc Hp.
    destruct (Faulty.while_true fuel code st1) as [st2 out] eqn:Hrun.
    destruct (faulty_while_true_account _ _ _ _ _ Hrun)
      as (evs & Hacc & Hbal & _).
    destruct (faulty_call_from_loop _ _ _ _ _ _ _ Hpush Hrun) as [-> Hret].
    destruct (fault_account_compose fuel (pushes d) st st1 st2 pre evs
                Hj Hf Hm Hs Hu Hc Hp Hacc) as [Hcall Heq].
    exists (pre ++ evs). split; [exact Hcall|].
    intros r Hr. apply Heq.
    destruct (Hret r Hr) as [execution ->]. simpl in Hbal. lia. }
  assert (Hfail : forall st1 (out : outcome unit) (pre : list event),
            Faulty.push_state d st = (st1, out) ->
            (forall u, out <> Return u) ->
            fault_account fuel (pushes d) st st1 pre ->
            exists evs,
              fault_account fuel (pushes d) st
                (fst (Faulty.__call__ fuel code d st)) evs
              /\ (forall r, snd (Faulty.__call__ fuel code d st) = Return r ->
                    length (uploads evs)
                    = (length (agent_calls evs) + pushes d)%nat)).
  { intros st1 out pre Hpush Hout Hacc. exists pre.
    unfold Faulty.__call__, bind. rewrite Hpush.
    destruct out as [[]| |]; [by destruct (Hout tt)|..]; simpl;
      (split; [exact Hacc | discriminate]). }
  destruct (decide (d = ∅)) as [->|Hd].
  - eapply (Hloop _ []); [apply faulty_push_state_empty|..];
      simpl; rewrite ?pushes_empty, ?app_nil_r, ?orb_false_r; done.
  - pose proof (faulty_push_state_nonempty d st Hd) as Hpush.
    destruct (pickle_fault d) as [e|].
    { eapply (Hfail _ _ []); [exact Hpush | discriminate |].
      split; simpl; try done; try lia; try constructor.
      - by rewrite app_nil_r.
      - by rewrite orb_false_r. }
    destruct (write_fault state_path (pickle_dumps d) (sbx st))
      as [[s0 e]|].
    { eapply (Hfail _ _ []); [exact Hpush | discriminate |].
      split; simpl; try done; try lia; try constructor.
      - by rewrite app_nil_r.
      - by rewrite orb_false_r. }
    rewrite (push_state_nonempty d st Hd) in Hpush.
    destruct (sbx_run_code remote_unloading_code (sbx (uploaded d st)))
      as [s' r].
    set (pre := [FilesWrite state_path (pickle_dumps d);
                 RunCode remote_unloading_code]).
    assert (Hpre : fault_account fuel (pushes d) st
                     (after_run remote_unloading_code s' (uploaded d st))
                     pre).
    { split; simpl; rewrite ?pushes_nonempty by done; try done; try lia.
      - by rewrite <- app_assoc.
      - repeat constructor. }
    destruct r as [e|execution];
      [eapply (Hfail _ _ pre); [exact Hpush | discriminate | exact Hpre]|].
    destruct (error execution);
      [eapply (Hfail _ _ pre); [exact Hpush | discriminate | exact Hpre]|].
    eapply (Hloop _ (pre ++ [Log (Message (Str.join nl (stdout execution)))
                                 (Some 1)]));
      [exact Hpush|..];
      simpl; rewrite ?pushes_nonempty by done; try done.
    + by rewrite <- !app_assoc.
    + repeat constructor.
Qed.

End FaultyAccounting.

(** ** Theorems on the call with failing local calls *)
Section FaultyTheorems.
Context `{bi : Builtins} {S : Type} `{sb : !Sandbox S} `{ft : !Faults S}.
Implicit Types (st : state (S := S)) (code : pystr) (h : handoff)
  (d : gmap pystr value).

(** X5: the ways out of the handler.  A report whose name is not a managed
    agent raises [KeyError] before anything is called.  Otherwise the
    agent is called; the agent, the pickling and the write may each raise,
    and then the handler raises the same; when the three return, the
    handler raises the invalid-line [ValueError] for an invalid line
    number, and for a valid one it returns the rewritten code unless
    [repr] raises.  The index is never out of range. *)
Theorem X5_handler_outcomes code h st :
  (managed_agents st !! agent_name h = None
   /\ Faulty.on_interruption code h st
      = (after_unknown h st, Raise (KeyError (agent_name h))))
  \/ exists callee : agent,
       managed_agents st !! agent_name h = Some callee
       /\ let result := callee (args h) (kwargs h) in
          let bundle := <[agent_name h := result]> (additional_args st) in
          (exists e,
              agent_fault (agent_name h) (args h) (kwargs h) = Some e
              /\ Faulty.on_interruption code h st
                 = (after_agent_call h st, Raise e))
          \/ (exists e,
                agent_fault (agent_name h) (args h) (kwargs h) = None
                /\ pickle_fault bundle = Some e
                /\ Faulty.on_interruption code h st
                   = (after_store h callee (sbx st) st, Raise e))
          \/ (exists s' e,
                agent_fault (agent_name h) (args h) (kwargs h) = None
                /\ pickle_fault bundle = None
                /\ write_fault state_path (pickle_dumps bundle) (sbx st)
                   = Some (s', e)
                /\ Faulty.on_interruption code h st
                   = (after_store h callee s' st, Raise e))
          \/ (local_calls_return h callee st
              /\ invalid_line (line_number h) (Str.splitlines code)
              /\ Faulty.on_interruption code h st
                 = (after_handoff h callee st,
                    Raise (ValueError
                             (invalid_line_message (line_number h) code))))
          \/ (exists i line,
                local_calls_return h callee st
                /\ guarded_index (line_number h) (Str.splitlines code)
                   = Some i
                /\ Str.splitlines code !! i = Some line
                /\ Faulty.on_interruption code h st
                   = (after_handoff h callee st,
                      match repr_fault result with
                      | Some e => Raise e
                      | None =>
                          Return (rewritten (Str.splitlines code) i line
                                            result)
                      end)).
Proof.
  destruct (managed_agents st !! agent_name h) as [callee|] eqn:Hcallee.
  - right. exists callee. split; [reflexivity|]. intros result bundle.
    rewrite (faulty_on_interruption_eq _ _ _ callee Hcallee). cbv zeta.
    fold result. fold bundle.
    destruct (agent_fault _ _ _) as [e|] eqn:Hagent; [left; eauto|].
    destruct (pickle_fault bundle) as [e|] eqn:Hpickle;
      [right; left; eauto|].
    destruct (write_fault _ _ _) as [[s' e]|] eqn:Hwrite;
      [right; right; left; eauto 6|].
    assert (Hret : local_calls_return h callee st) by done.
    destruct (guarded_index (line_number h) (Str.splitlines code)) as [i|]
      eqn:Hidx.
    + do 4 right. destruct (guarded_index_lookup _ _ _ Hidx) as [line Hline].
      exists i, line. rewrite Hline. auto.
    + do 3 right. left. apply guarded_index_None in Hidx. auto.
  - left. split; [reflexivity|]. by apply faulty_on_interruption_unknown.
Qed.

(** X10: the accounts of the loop, for every sandbox and whatever the local
    calls do.  The loop submits at most one code per iteration and makes at
    most one upload per agent call.  When it returns, the execution has no
    error, the submissions are one more than the agent calls, and every
    agent call was followed by its upload; when it raises, the submissions
    are as many as the agent calls or one more, and the agent calls as many
    as the uploads or one more; a loop that is still running after [fuel]
    iterations has made [fuel] submissions, calls and uploads. *)
Theorem X10_loop_accounts (fuel : nat) code st :
  let st' := fst (Faulty.while_true fuel code st) in
  let out := snd (Faulty.while_true fuel code st) in
  exists evs,
    journal st' = journal st ++ evs
    /\ (length (submissions evs) <= fuel)%nat
    /\ (length (uploads evs) <= length (agent_calls evs))%nat
    /\ match out with
       | Return execution =>
           error execution = None
           /\ length (submissions evs)
              = Datatypes.S (length (agent_calls evs))
           /\ length (uploads evs) = length (agent_calls evs)
       | Raise _ =>
           (length (agent_calls evs) <= length (submissions evs)
            <= Datatypes.S (length (agent_calls evs)))%nat
           /\ (length (agent_calls evs)
               <= Datatypes.S (length (uploads evs)))%nat
       | OutOfFuel =>
           length (submissions evs) = fuel
           /\ length (agent_calls evs) = fuel
           /\ length (uploads evs) = fuel
       end.
Proof.
  intros st' out. subst st' out.
  destruct (Faulty.while_true fuel code st) as [st' out] eqn:Hrun.
  destruct (faulty_while_true_account _ _ _ _ _ Hrun)
    as (evs & [Hj _ _ Hfuel Hup _ _] & Hbal & Herr).
  exists evs. simpl. split; [exact Hj|]. split; [lia|]. split; [lia|].
  destruct out as [execution| |]; simpl in Hbal.
  - split; [by apply Herr | lia].
  - lia.
  - exact Hbal.
Qed.

(** X12: the uploads of a call, for every sandbox and whatever the local
    calls do.  Every file the call writes goes to the state path; the
    uploads are at most the agent calls, plus one when the dictionary is
    not empty, and exactly that many when the call returns; every agent the
    call invokes is a managed agent. *)
Theorem X12_call_uploads (fuel : nat) code d st :
  let evs :=
    drop (length (journal st))
         (journal (fst (Faulty.__call__ fuel code d st))) in
  journal (fst (Faulty.__call__ fuel code d st)) = journal st ++ evs
  /\ Forall (fun u => fst u = state_path) (uploads evs)
  /\ (length (uploads evs) <= length (agent_calls evs) + pushes d)%nat
  /\ (forall r, snd (Faulty.__call__ fuel code d st) = Return r ->
        length (uploads evs) = (length (agent_calls evs) + pushes d)%nat)
  /\ Forall (fun n => is_Some (managed_agents st !! n)) (agent_calls evs).
Proof.
  intros evs.
  destruct (faulty_call_accounts fuel code d st)
    as (evs' & [Hj _ _ _ Hup Hpath Hag] & Hret).
  assert (Hevs : evs = evs').
  { subst evs. by rewrite Hj, drop_app_length. }
  rewrite Hevs. auto.
Qed.


End FaultyTheorems.

(** ** The arguments of the agent's call *)
Section ReportedArguments.
Context `{bi : Builtins} {S : Type} `{sb : !Sandbox S} `{ft : !Faults S}.
Implicit Types (st : state (S := S)) (code : pystr) (h : handoff).

(** X19: an interruption keeps the name, the keyword arguments and the
    line number it was constructed with, but its positional arguments are
    the message alone.  So for a report that names a managed agent the
    handler calls the agent with the message as the only positional
    argument, whatever was passed to the constructor; and when the local
    calls return, the value stored under the name is the agent's result on
    the message. *)
Theorem X19_agent_called_with_message
    (as_value : pystr -> value) code n a kw line_no st (callee : agent) :
  managed_agents st !! n = Some callee ->
  let h := AgentCallInterruption_init as_value n a kw line_no in
  let message :=
    as_value (py "Sub-agent call interruption for '" ++ n
              ++ py "' at line " ++ Str.of_optional_int line_no) in
  let st' := fst (Faulty.on_interruption code h st) in
  (exists evs,
      journal st' =
        journal st ++
          Log (RunningSubAgent h) (Some 0) :: AgentCalled n [message] kw :: evs)
  /\ (local_calls_return h callee st ->
      additional_args st' !! n = Some (callee [message] kw)).
Proof.
  intros Hcallee h message st'. subst st'.
  rewrite (faulty_on_interruption_eq code h st callee Hcallee). cbv zeta.
  split.
  - destruct (agent_fault _ _ _) as [e|]; [by exists []|].
    destruct (pickle_fault _) as [e|]; [by exists []|].
    destruct (write_fault _ _ _) as [[s' e]|]; [by exists []|].
    simpl. eexists. reflexivity.
  - intros (Hagent & Hpickle & Hwrite).
    rewrite Hagent, Hpickle, Hwrite. simpl. apply lookup_insert_eq.
Qed.

End ReportedArguments.

(** ** The call with failing local calls on concrete runs *)
Section FaultyRuns.
Import Doubles Scenario Cases.






(** A failed remote run and an invalid reported line can also raise the
    same [ValueError], message included. *)
Lemma failures_with_one_message :
  let code := py "Executing code yielded an error:" in
  let out := py "Invalid line number 7 for code action:" ++ nl in
  snd (__call__ 1 code ∅
         (new_executor
            [inr {| results := []; stdout := [out];
                    error := Some {| name := []; value_ := [];
                                     traceback := [] |} |}]
            helper_agents))
  = snd (__call__ 1 code ∅
           (new_executor [inl (interruption (py "helper") (Some 7))]
                         helper_agents)).
Proof. vm_compute. reflexivity. Qed.

(** C6 as stated fails: no result is flagged as main, and in final-answer
    mode the call raises where the claim has it return no result. *)
Lemma C6_final_answer_mode_raises_without_main :
  (forall r, r ∈ results only_secondary -> is_main_result r = false)
  /\ snd (run_phase 1 finishing_code ∅ completes_with_secondary)
     = Return only_secondary
  /\ snd (__call__ 1 finishing_code ∅ completes_with_secondary)
     = Raise (ValueError no_main_result_message).
Proof.
  split; [|split; vm_compute; reflexivity].
  intros r Hr. apply list_elem_of_singleton in Hr as ->. reflexivity.
Qed.

Lemma C6_result_extraction_witness :
  Faulty.main_result_output (ft := no_faults (list (exn + Execution)))
    [secondary; picture; document]
  = Some (inr (Image_open (b64decode
       (py "R0lGODlhAQABAIAAAAAAAP///yH5BAEAAAAALAAAAAABAAEAAAIBRAA7"))))
  /\ Faulty.main_result_output (ft := no_faults (list (exn + Execution)))
       [document; picture]
     = Some (inr 3)
  /\ Faulty.main_result_output (ft := no_faults (list (exn + Execution)))
       [secondary]
     = None
  /\ Faulty.__call__ (ft := no_faults _) 1 three_lines ∅
       completes_with_document
     = (fst (Faulty.run_phase (ft := no_faults _) 1 three_lines ∅
               completes_with_document),
        Return (Some 3, py "done", false)).
Proof.
  destruct (C6_result_extraction (bi := toy) (sb := scripted)
              (ft := no_faults _))
    as (_ & Himage & _ & Hdecode & Hdoc & _ & _ & Hnone & Hcall).
  split; [|split; [|split]].
  - change (Faulty.main_result_output
              (ft := no_faults (list (exn + Execution)))
              [secondary; picture; document])
      with (Faulty.main_result_output
              (ft := no_faults (list (exn + Execution)))
              [picture; document]).
    rewrite (Himage picture [document] _ eq_refl eq_refl).
    by rewrite (proj1 (Hdecode _) eq_refl eq_refl).
  - rewrite (Hdoc document [picture]); reflexivity.
  - apply (Hnone [secondary]).
    intros r Hr. apply list_elem_of_singleton in Hr as ->. reflexivity.
  - rewrite (Hcall 1%nat three_lines ∅ completes_with_document
               (fst (Faulty.run_phase (ft := no_faults _) 1 three_lines ∅
                       completes_with_document))
               with_document);
      [|vm_compute; reflexivity].
    f_equal.
Defined.

End FaultyRuns.

(** ** The arguments of the agent's call on a concrete run *)
Section ReportedArgumentsRun.
Import Doubles Scenario Cases.

Lemma X19_agent_called_with_message_witness :
  let h := AgentCallInterruption_init toy_str (py "helper") [1; 2] []
             (Some 2) in
  let st' :=
    fst (Faulty.on_interruption (ft := no_faults _) three_lines h
           intercept_once) in
  (exists evs,
      journal st' =
        journal intercept_once ++
          Log (RunningSubAgent h) (Some 0)
          :: AgentCalled (py "helper") [50] [] :: evs)
  /\ (local_calls_return (ft := no_faults _) h (fun _ _ => 42) intercept_once ->
      additional_args st' !! py "helper" = Some 42).
Proof.
  assert (Hcallee : managed_agents intercept_once !! py "helper"
                    = Some (fun _ _ => 42))
    by (vm_compute; reflexivity).
  exact (X19_agent_called_with_message (ft := no_faults _) toy_str
           three_lines (py "helper") [1; 2] [] (Some 2) intercept_once
           (fun _ _ => 42) Hcallee).
Defined.

End ReportedArgumentsRun.
